(** * incognitart: the gallery backend of [backend/main.py]

    A shallow embedding of the record store (tables [images] and [likes]),
    the aggregation helpers, the feed builder [list_images], the like
    toggle [like_image] and the upload route, followed by the properties
    of the written specification.

    Conventions.
    - A [datetime] is a number of microseconds since the epoch; the calls
      of [datetime.utcnow()] are an explicit argument [utcnow].
    - A table is the list of its rows in rowid order; a committed INSERT
      appends a row whose id is one more than the largest id in use.
    - A handler takes the store and returns the store after the request
      together with what it returns or raises.
    - The database driver binds a Python [int] only when it fits a signed
      64-bit integer and raises [OverflowError] otherwise; the rows of the
      store themselves are taken as they are. *)

From stdpp Require Import gmap strings list sorting.
From Stdlib Require Import ZArith Lia Ascii.

Local Open Scope Z_scope.

(** ** Values *)

Definition datetime := Z.

(** [timedelta(days=d)], in microseconds. *)
Definition timedelta_days (d : Z) : Z := d * 86400000000.

(** Python's truth value of a [str] and of an [Optional[str]]. *)
Definition truthy (s : string) : bool := negb (bool_decide (s = EmptyString)).

Definition truthy_opt (s : option string) : bool :=
  match s with
  | None => false
  | Some s => truthy s
  end.

(** [s.rstrip(c)] for a one-character [c]. *)
Fixpoint rstrip (c : ascii) (s : string) : string :=
  match s with
  | EmptyString => EmptyString
  | String a s' =>
      match rstrip c s' with
      | EmptyString => if bool_decide (a = c) then EmptyString else String a EmptyString
      | r => String a r
      end
  end.

(** ** Tables *)

Module Image.
Record t := mk {
  id : Z;
  author_name : option string;
  image_name : option string;
  original_filename : string;
  stored_filename : string;
  content_type : option string;
  size : option Z;
  created_at : datetime
}.
End Image.

Module Like.
Record t := mk {
  id : Z;
  image_id : Z;
  user_hash : string;
  created_at : datetime
}.
End Like.

(** The record store behind [SessionLocal]. *)
Record DB := mkDB {
  images : list Image.t;
  likes : list Like.t
}.

Definition empty_db : DB := mkDB [] [].

(** ** What a handler raises *)

Inductive Exn :=
| HTTPException (status_code : Z) (detail : string)
| RequestValidationError
| IntegrityError
| OverflowError.

Inductive result (A : Type) :=
| Return (a : A)
| Raise (e : Exn).
Arguments Return {A} a.
Arguments Raise {A} e.

(** The status line the HTTP layer answers with. *)
Definition status {A} (r : result A) : Z :=
  match r with
  | Return _ => 200
  | Raise (HTTPException c _) => c
  | Raise RequestValidationError => 422
  | Raise IntegrityError => 500
  | Raise OverflowError => 500
  end.

(** Sequencing of calls that may raise. *)
#[global] Instance result_ret : MRet result := λ A a, Return a.

#[global] Instance result_bind : MBind result :=
  λ A B f r, match r with Return a => f a | Raise e => Raise e end.

(** ** Pydantic schemas *)

Module ImageOut.
Record t := mk {
  id : Z;
  author_name : option string;
  image_name : option string;
  original_filename : string;
  stored_filename : string;
  content_type : option string;
  size : option Z;
  created_at : datetime;
  likes_count : Z;
  liked_by_user : bool;
  image_url : string
}.
End ImageOut.

Module LikeAction.
Record t := mk {
  user_hash : string;
  action : string  (* "like" or "unlike" *)
}.
End LikeAction.

(** The dictionary [like_image] returns. *)
Record LikeOut := mkLikeOut {
  image_id : Z;
  likes_count : Z;
  liked_by_user : bool
}.

(** ** Store primitives *)

(** The id SQLite gives the next row of a table whose ids are [ids]. *)
Definition next_id (ids : list Z) : Z := 1 + foldr Z.max 0 ids.

(** The range of a SQLite INTEGER, which is all the driver binds. *)
Definition int64 (z : Z) : Prop := - 2 ^ 63 ≤ z < 2 ^ 63.

#[global] Instance int64_dec z : Decision (int64 z).
Proof. unfold int64. apply _. Defined.

(** The row of [images] with primary key [image_id], if there is one. *)
Definition get_image (db : DB) (image_id : Z) : option Image.t :=
  head (filter (λ img, Image.id img = image_id) (images db)).

(** [db.get(Image, image_id)]: the key is bound, then the row looked up. *)
Definition db_get (db : DB) (image_id : Z) : result (option Image.t) :=
  if bool_decide (int64 image_id) then Return (get_image db image_id)
  else Raise OverflowError.

(** The Like rows of one (image, user) pair. *)
Definition like_rows (db : DB) (image_id : Z) (user_hash : string) : list Like.t :=
  filter (λ l, Like.image_id l = image_id ∧ Like.user_hash l = user_hash) (likes db).

(** [select(func.count(Like.id)).where(Like.image_id == image_id)] *)
Definition count_likes (db : DB) (image_id : Z) : Z :=
  Z.of_nat (length (filter (λ l, Like.image_id l = image_id) (likes db))).

(** [db.add(Like(...)); db.commit()]: the INSERT is refused with
    [IntegrityError] when the constraint [uix_image_user] already holds a
    row for the pair. *)
Definition commit_like (db : DB) (image_id : Z) (user_hash : string)
    (created_at : datetime) : result DB :=
  match like_rows db image_id user_hash with
  | [] =>
      Return (mkDB (images db)
                (likes db ++
                 [Like.mk (next_id (Like.id <$> likes db)) image_id user_hash created_at]))
  | _ :: _ => Raise IntegrityError
  end.

(** [db.execute(delete(Like).where(...)); db.commit()] *)
Definition delete_likes (db : DB) (image_id : Z) (user_hash : string) : DB :=
  mkDB (images db)
    (filter (λ l, ¬ (Like.image_id l = image_id ∧ Like.user_hash l = user_hash)) (likes db)).

(** ** Like toggle *)

Definition InvalidInput : Exn := HTTPException 400 "Invalid payload".
Definition NotFound : Exn := HTTPException 404 "Image not found".

Definition like_image (db : DB) (image_id : Z) (action : LikeAction.t)
    (utcnow : datetime) : DB * result LikeOut :=
  if negb (truthy (LikeAction.user_hash action))
     || negb (bool_decide (LikeAction.action action ∈ ["like"; "unlike"]%string))
  then (db, Raise InvalidInput)
  else
    match db_get db image_id with
    | Raise e => (db, Raise e)
    | Return None => (db, Raise NotFound)
    | Return (Some img) =>
        if bool_decide (LikeAction.action action = "like"%string) then
          let counted (db' : DB) :=
            (* compute total likes *)
            let total := count_likes db' image_id in
            (db', Return (mkLikeOut image_id total true)) in
          match commit_like db image_id (LikeAction.user_hash action) utcnow with
          | Return db' => counted db'
          | Raise IntegrityError => counted db (* rollback: already liked *)
          | Raise e => (db, Raise e)
          end
        else (* unlike *)
          let db' := delete_likes db image_id (LikeAction.user_hash action) in
          let total := count_likes db' image_id in
          (db', Return (mkLikeOut image_id total false))
    end.

(** ** Aggregation helpers *)

(** The rows of [select(k, func.count(...)).group_by(k)] over a column
    whose values are [keys]: one row per distinct value, with the number
    of its occurrences. *)
Definition group_by_count (keys : list Z) : list (Z * Z) :=
  (λ k, (k, Z.of_nat (length (filter (λ k', k' = k) keys)))) <$> remove_dups keys.

(** The dict comprehension [{r[0]: r[1] for r in rows}]. *)
Definition dict_of_rows (rows : list (Z * Z)) : gmap Z Z :=
  foldl (λ m r, <[r.1 := r.2]> m) ∅ rows.

Definition _get_total_likes_for_ids (db : DB) (ids : list Z) : gmap Z Z :=
  match ids with
  | [] => ∅
  | _ :: _ =>
      let rows :=
        group_by_count
          (Like.image_id <$> filter (λ l, Like.image_id l ∈ ids) (likes db)) in
      dict_of_rows rows
  end.

Definition _get_liked_ids_by_user (db : DB) (ids : list Z) (user_hash : string)
    : gset Z :=
  if bool_decide (ids = []) || negb (truthy user_hash) then ∅
  else
    let rows :=
      Like.image_id <$>
        filter (λ l, Like.image_id l ∈ ids ∧ Like.user_hash l = user_hash) (likes db) in
    list_to_set rows.

(** ** Feed builder *)

(** [ORDER BY key DESC]: the rows sorted by decreasing key. Rows with equal
    keys keep the order in which the table holds them. *)
Definition desc_by {A} (key : A → Z) : relation A := λ a b, key b ≤ key a.

Fixpoint insert_desc {A} (key : A → Z) (x : A) (rows : list A) : list A :=
  match rows with
  | [] => [x]
  | y :: rest =>
      if decide (key y ≤ key x) then x :: y :: rest
      else y :: insert_desc key x rest
  end.

Definition order_by_desc {A} (key : A → Z) (rows : list A) : list A :=
  foldr (insert_desc key) [] rows.

(** [.offset(skip).limit(limit)] *)
Definition offset_limit {A} (skip limit : Z) (rows : list A) : list A :=
  take (Z.to_nat limit) (drop (Z.to_nat skip) rows).

(** [db.execute(stmt)] for a statement that ends in
    [.offset(skip).limit(limit)]: both numbers are bound parameters. *)
Definition execute_offset_limit {A} (skip limit : Z) (rows : list A)
    : result (list A) :=
  if bool_decide (int64 skip ∧ int64 limit) then Return (offset_limit skip limit rows)
  else Raise OverflowError.

(** The sort keys of the three strategies. *)
Definition likes_total (db : DB) (img : Image.t) : Z :=
  Z.of_nat (length (filter (λ l, Like.image_id l = Image.id img) (likes db))).

Definition likes_week (db : DB) (cutoff : datetime) (img : Image.t) : Z :=
  Z.of_nat (length (filter (λ l, Like.image_id l = Image.id img ∧ cutoff ≤ Like.created_at l)
                      (likes db))).

(** One element of the response payload. *)
Definition image_out (base : string) (total_likes_map : gmap Z Z) (liked_ids : gset Z)
    (img : Image.t) : ImageOut.t :=
  let image_url := (base +:+ "/images/" +:+ Image.stored_filename img)%string in
  ImageOut.mk (Image.id img) (Image.author_name img) (Image.image_name img)
    (Image.original_filename img) (Image.stored_filename img)
    (Image.content_type img) (Image.size img) (Image.created_at img)
    (default 0 (total_likes_map !! Image.id img))
    (bool_decide (Image.id img ∈ liked_ids))
    image_url.

(** The closure [_db_work] of [list_images], with the variables it
    captures as arguments. [Image.id] is the primary key, so the groups of
    [group_by(Image.id)] in the popular query are the images themselves. *)
Definition _db_work (db : DB) (base_url : string) (skip limit : Z) (sort : string)
    (user_hash : option string) (utcnow : datetime) : result (list ImageOut.t) :=
  images ←
    (if bool_decide (sort = "recent"%string) then
       execute_offset_limit skip limit (order_by_desc Image.created_at (images db))
     else if bool_decide (sort = "popular"%string) then
       rows ← execute_offset_limit skip limit
                (order_by_desc snd ((λ img, (img, likes_total db img)) <$> images db));
       mret (fst <$> rows)
     else if bool_decide (sort = "trending"%string) then
       let cutoff := utcnow - timedelta_days 7 in
       rows ← execute_offset_limit skip limit
                (order_by_desc snd
                   ((λ img, (img, likes_week db cutoff img)) <$> images db));
       mret (fst <$> rows)
     else
       (* fallback to recent *)
       execute_offset_limit skip limit (order_by_desc Image.created_at (images db)));
  let ids := Image.id <$> images in
  let total_likes_map := _get_total_likes_for_ids db ids in
  let liked_ids :=
    match user_hash with
    | Some u => if truthy u then _get_liked_ids_by_user db ids u else ∅
    | None => ∅
    end in
  let base := rstrip "/"%char base_url in
  mret (image_out base total_likes_map liked_ids <$> images).

Definition list_images (db : DB) (base_url : string) (page limit : Z) (sort : string)
    (user_hash : option string) (utcnow : datetime) : result (list ImageOut.t) :=
  let page := Z.max 1 page in
  let limit := Z.max 1 (Z.min 100 limit) in
  let skip := (page - 1) * limit in
  _db_work db base_url skip limit sort user_hash utcnow.

(** ** Upload *)

(** What the multipart parser hands over for the part [image]. *)
Record UploadFile := mkUploadFile {
  filename : option string;
  upload_content_type : option string;
  contents : list Byte.byte
}.

(** The two attributes of [pathlib.Path] the handler reads. *)
Class Pathlib := {
  Path_name : string → string;
  Path_suffix : string → string
}.

(** The directory [IMAGES_DIR]: stored file name to bytes. *)
Abbreviation FileStore := (gmap string (list Byte.byte)).

(** [x or d] on strings. *)
Definition or_else (x : option string) (d : string) : string :=
  match x with
  | Some s => if truthy s then s else d
  | None => d
  end.

(** [stored_filename] is declared [unique=True]: the commit of a second
    row with the same name raises [IntegrityError]. *)
Definition _create_image_record (db : DB) (author_name image_name : option string)
    (original_filename stored_filename : string) (content_type : option string)
    (size : Z) (utcnow : datetime) : result (DB * Image.t) :=
  if bool_decide (stored_filename ∈ Image.stored_filename <$> images db) then
    Raise IntegrityError
  else
    let img :=
      Image.mk (next_id (Image.id <$> images db)) author_name image_name
        original_filename stored_filename content_type (Some size) utcnow in
    Return (mkDB (images db ++ [img]) (likes db), img).

(** The handler. [hex] is the draw of [uuid4().hex]. *)
Definition upload_image `{Pathlib} (db : DB) (files : FileStore) (base_url : string)
    (authorName imageName : option string) (image : option UploadFile)
    (hex : string) (utcnow : datetime) : DB * FileStore * result ImageOut.t :=
  match image with
  | None => (db, files, Raise (HTTPException 400 "No image file provided"))
  | Some image =>
      let size := Z.of_nat (length (contents image)) in
      let original := or_else (filename image) "upload" in
      let ext := or_else (Some (Path_suffix original)) ".png" in
      let stored_filename := (hex +:+ ext)%string in
      let files := <[stored_filename := contents image]> files in
      match
        _create_image_record db authorName imageName (Path_name original)
          stored_filename (upload_content_type image) size utcnow
      with
      | Raise e => (db, files, Raise e)
      | Return (db, img) =>
          let base := base_url in
          let image_url :=
            (rstrip "/"%char base +:+ "/images/" +:+ stored_filename)%string in
          (* likes initially zero *)
          (db, files,
           Return
             (ImageOut.mk (Image.id img) (Image.author_name img) (Image.image_name img)
                (Image.original_filename img) (Image.stored_filename img)
                (Image.content_type img) (Image.size img) (Image.created_at img)
                0 false image_url))
      end
  end.

(** The route [POST /image]. The parameter is declared
    [image: UploadFile = File(...)], a required part: a form without it is
    answered by the request validation and the handler is not called. *)
Definition POST_image `{Pathlib} (db : DB) (files : FileStore) (base_url : string)
    (authorName imageName : option string) (image : option UploadFile)
    (hex : string) (utcnow : datetime) : DB * FileStore * result ImageOut.t :=
  match image with
  | None => (db, files, Raise RequestValidationError)
  | Some f => upload_image db files base_url authorName imageName (Some f) hex utcnow
  end.

(** ** Reachable stores *)

(** One request served, as a change of the record store. *)
Inductive step `{Pathlib} : DB → DB → Prop :=
| step_upload db files base_url authorName imageName image hex utcnow :
    step db (POST_image db files base_url authorName imageName image hex utcnow).1.1
| step_list db :
    step db db
| step_like db image_id action utcnow :
    step db (like_image db image_id action utcnow).1.

Definition reachable `{Pathlib} (db : DB) : Prop := rtc step empty_db db.

(** The constraint [uix_image_user] of the table [likes]. *)
Definition uix_image_user (db : DB) : Prop :=
  ∀ image_id user_hash, (length (like_rows db image_id user_hash) ≤ 1)%nat.

(** ** Vocabulary of the specification *)

Definition image_exists (db : DB) (image_id : Z) : Prop :=
  ∃ img, img ∈ images db ∧ Image.id img = image_id.

(** A non-blank user hash and one of the two recognized actions. *)
Definition valid_payload (action : LikeAction.t) : Prop :=
  LikeAction.user_hash action ≠ ""%string ∧
  (LikeAction.action action = "like"%string ∨
   LikeAction.action action = "unlike"%string).

(** The store after a valid "like" on an existing image. *)
Definition liked (db : DB) (image_id : Z) (user_hash : string) (utcnow : datetime) : DB :=
  match commit_like db image_id user_hash utcnow with
  | Return db' => db'
  | Raise _ => db
  end.

(** The full ordering a listing is a window of: every image of the store,
    by the key of the sort strategy, largest first. *)
Definition ranking (db : DB) (sort : string) (utcnow : datetime) : list Image.t :=
  if bool_decide (sort = "popular"%string) then
    fst <$> order_by_desc snd ((λ img, (img, likes_total db img)) <$> images db)
  else if bool_decide (sort = "trending"%string) then
    fst <$> order_by_desc snd
              ((λ img, (img, likes_week db (utcnow - timedelta_days 7) img)) <$> images db)
  else
    order_by_desc Image.created_at (images db).

(** The Like rows of an image whose [created_at] lies in [[lo, hi]]. *)
Definition likes_in_window (db : DB) (lo hi : datetime) (img : Image.t) : Z :=
  Z.of_nat (length (filter (λ l, Like.image_id l = Image.id img
                                 ∧ lo ≤ Like.created_at l ≤ hi) (likes db))).

(** The images a listing selects: a window of the ranking. *)
Definition page_of (db : DB) (skip limit : Z) (sort : string) (utcnow : datetime)
    : list Image.t :=
  offset_limit skip limit (ranking db sort utcnow).

(** The clamped pagination parameters, as the specification words them. *)
Definition clamp_page (page : Z) : Z := if decide (page < 1) then 1 else page.

Definition clamp_limit (limit : Z) : Z :=
  if decide (limit < 1) then 1 else if decide (100 < limit) then 100 else limit.

(** The window offset of a request. *)
Definition offset_of (page limit : Z) : Z := (clamp_page page - 1) * clamp_limit limit.

(** The key a sort strategy orders by. *)
Definition sort_key (db : DB) (sort : string) (utcnow : datetime) : Image.t → Z :=
  if bool_decide (sort = "popular"%string) then likes_total db
  else if bool_decide (sort = "trending"%string) then
    likes_week db (utcnow - timedelta_days 7)
  else Image.created_at.

(** The view models of a page, when the statement is accepted. *)
Definition rendered_page (db : DB) (base_url : string) (skip limit : Z) (sort : string)
    (user_hash : option string) (utcnow : datetime) : list ImageOut.t :=
  let images := page_of db skip limit sort utcnow in
  let ids := Image.id <$> images in
  image_out (rstrip "/"%char base_url) (_get_total_likes_for_ids db ids)
    match user_hash with
    | Some u => if truthy u then _get_liked_ids_by_user db ids u else ∅
    | None => ∅
    end
  <$> images.

(** [vm] shows the stored fields of [img]. *)
Definition view_of (img : Image.t) (vm : ImageOut.t) : Prop :=
  ImageOut.id vm = Image.id img ∧
  ImageOut.author_name vm = Image.author_name img ∧
  ImageOut.image_name vm = Image.image_name img ∧
  ImageOut.original_filename vm = Image.original_filename img ∧
  ImageOut.stored_filename vm = Image.stored_filename img ∧
  ImageOut.content_type vm = Image.content_type img ∧
  ImageOut.size vm = Image.size img ∧
  ImageOut.created_at vm = Image.created_at img.

(** ** Scenarios *)

Definition day : Z := timedelta_days 1.

Definition image_A : Image.t :=
  Image.mk 1 (Some "ann"%string) (Some "A"%string) "a.png" "0a.png"
    (Some "image/png"%string) (Some 3) (1 * day).

Definition image_B : Image.t :=
  Image.mk 2 None None "b.jpg" "0b.jpg" (Some "image/jpeg"%string) (Some 5) (2 * day).

(** Images A and B uploaded, nobody has liked anything. *)
Definition gallery : DB := mkDB [image_A; image_B] [].

(** The clock of the trending scenario, and its store: A has two likes
    that are ten days old, B has one like from yesterday. *)
Definition today : datetime := 30 * day.

Definition gallery_liked : DB :=
  mkDB [image_A; image_B]
    [Like.mk 1 1 "u1" (today - 10 * day);
     Like.mk 2 1 "u2" (today - 10 * day);
     Like.mk 3 2 "u1" (today - 1 * day)].

(** The mirrored store: A has one like from yesterday, B has two likes
    that are ten days old. *)
Definition gallery_liked_late : DB :=
  mkDB [image_A; image_B]
    [Like.mk 1 2 "u1" (today - 10 * day);
     Like.mk 2 2 "u2" (today - 10 * day);
     Like.mk 3 1 "u1" (today - 1 * day)].

(** A stand-in for [pathlib] on the file names of the scenarios, which
    have no directory part. *)
Definition flat_names : Pathlib :=
  {| Path_name := λ name, name; Path_suffix := λ _, ".png"%string |}.

Definition png_upload : UploadFile :=
  mkUploadFile (Some "cat.png"%string) (Some "image/png"%string) [Byte.x89; Byte.x50].

(** The store after one upload and one like of the uploaded image. *)
Definition uploaded : DB :=
  (@POST_image flat_names empty_db ∅ "http://localhost:8000/" None None
     (Some png_upload) "5f0c" (1 * day)).1.1.

Definition uploaded_liked : DB :=
  (like_image uploaded 1 (LikeAction.mk "u1" "like") (2 * day)).1.

(** What a client reads off a listing: id, like count and own like. *)
Definition summary (r : result (list ImageOut.t)) : list (Z * Z * bool) :=
  match r with
  | Return res =>
      (λ vm, (ImageOut.id vm, ImageOut.likes_count vm, ImageOut.liked_by_user vm)) <$> res
  | Raise _ => []
  end.

(** Three images created at t1 < t2 < t3. *)
Definition three_images : DB :=
  mkDB [Image.mk 1 None None "1.png" "01.png" None (Some 1) (1 * day);
        Image.mk 2 None None "2.png" "02.png" None (Some 1) (2 * day);
        Image.mk 3 None None "3.png" "03.png" None (Some 1) (3 * day)] [].


(** ** Integrity of the store *)

(** The primary keys of the two tables and the [unique=True] column. *)
Definition primary_keys (db : DB) : Prop :=
  NoDup (Image.id <$> images db) ∧
  NoDup (Like.id <$> likes db) ∧
  NoDup (Image.stored_filename <$> images db).

(** The foreign key [likes.image_id -> images.id]. *)
Definition foreign_keys (db : DB) : Prop :=
  ∀ l, l ∈ likes db → image_exists db (Like.image_id l).

(** One request served, as a change of the record store and of the
    directory of stored files. *)
Inductive world_step `{Pathlib} : DB * FileStore → DB * FileStore → Prop :=
| world_upload db files base_url authorName imageName image hex utcnow :
    world_step (db, files)
      (POST_image db files base_url authorName imageName image hex utcnow).1
| world_list db files :
    world_step (db, files) (db, files)
| world_like db files image_id action utcnow :
    world_step (db, files) ((like_image db image_id action utcnow).1, files).

Definition reachable_world `{Pathlib} (w : DB * FileStore) : Prop :=
  rtc world_step (empty_db, ∅) w.

(** The name under which [upload_image] stores the file [f]. *)
Definition stored_name `{Pathlib} (hex : string) (f : UploadFile) : string :=
  (hex +:+ or_else (Some (Path_suffix (or_else (filename f) "upload"))) ".png")%string.

(** The row [upload_image] inserts for the file [f]. *)
Definition new_image `{Pathlib} (db : DB) (authorName imageName : option string)
    (f : UploadFile) (hex : string) (utcnow : datetime) : Image.t :=
  Image.mk (next_id (Image.id <$> images db)) authorName imageName
    (Path_name (or_else (filename f) "upload")) (stored_name hex f)
    (upload_content_type f) (Some (Z.of_nat (length (contents f)))) utcnow.

(** Every Like row belongs to an image of the store and to a non-blank
    user hash. *)
Definition likes_sound (db : DB) : Prop :=
  ∀ l, l ∈ likes db →
    image_exists db (Like.image_id l) ∧ Like.user_hash l ≠ ""%string.

(** Every image row has its file in the directory of stored files. *)
Definition files_present (w : DB * FileStore) : Prop :=
  ∀ img, img ∈ images w.1 → is_Some (w.2 !! Image.stored_filename img).

(** The liveness probe [GET /]. *)
Definition health : list (string * bool) := [("ok"%string, true)].

(** * Properties of the like toggle *)

Section LikeToggle.
Implicit Types (db : DB) (action : LikeAction.t) (utcnow : datetime).

Lemma get_image_None db image_id :
  get_image db image_id = None ↔ ¬ image_exists db image_id.
Proof.
  unfold get_image, image_exists. rewrite head_None. split.
  - intros Hnil (img & Hin & Hid).
    assert (Hf : img ∈ filter (λ img, Image.id img = image_id) (images db))
      by (apply list_elem_of_filter; done).
    rewrite Hnil in Hf. by apply not_elem_of_nil in Hf.
  - intros Hno.
    destruct (filter _ (images db)) as [|img rest] eqn:Hf; [done|].
    exfalso. apply Hno. exists img.
    assert (Hin : img ∈ filter (λ img, Image.id img = image_id) (images db))
      by (rewrite Hf; left).
    apply list_elem_of_filter in Hin as [Hid Hin]. done.
Qed.

Lemma get_image_Some db image_id :
  image_exists db image_id → ∃ img, get_image db image_id = Some img.
Proof.
  intros Hex. destruct (get_image db image_id) as [img|] eqn:Hg; [eauto|].
  by apply get_image_None in Hg.
Qed.

Lemma payload_guard action :
  negb (truthy (LikeAction.user_hash action))
  || negb (bool_decide (LikeAction.action action ∈ ["like"; "unlike"]%string)) = false
  ↔ valid_payload action.
Proof.
  unfold truthy, valid_payload.
  rewrite orb_false_iff, !negb_false_iff, negb_true_iff.
  rewrite bool_decide_eq_false, bool_decide_eq_true.
  rewrite !elem_of_cons, elem_of_nil. tauto.
Qed.

Lemma like_image_invalid db image_id action utcnow :
  ¬ valid_payload action →
  like_image db image_id action utcnow = (db, Raise InvalidInput).
Proof.
  intros Hbad. unfold like_image.
  destruct (negb _ || negb _) eqn:Hg; [done|].
  by apply payload_guard in Hg.
Qed.

Lemma db_get_in_range db image_id :
  int64 image_id → db_get db image_id = Return (get_image db image_id).
Proof. intros Hid. unfold db_get. by rewrite bool_decide_eq_true_2. Qed.

Lemma like_image_not_found db image_id action utcnow :
  valid_payload action → int64 image_id → ¬ image_exists db image_id →
  like_image db image_id action utcnow = (db, Raise NotFound).
Proof.
  intros Hok Hid Hno. unfold like_image.
  apply payload_guard in Hok as ->. rewrite db_get_in_range by done.
  apply get_image_None in Hno as ->. done.
Qed.

Lemma like_image_overflow db image_id action utcnow :
  valid_payload action → ¬ int64 image_id →
  like_image db image_id action utcnow = (db, Raise OverflowError).
Proof.
  intros Hok Hid. unfold like_image, db_get.
  apply payload_guard in Hok as ->. by rewrite bool_decide_eq_false_2.
Qed.

Lemma like_image_like db image_id user_hash utcnow :
  user_hash ≠ ""%string → int64 image_id → image_exists db image_id →
  like_image db image_id (LikeAction.mk user_hash "like") utcnow =
    (liked db image_id user_hash utcnow,
     Return (mkLikeOut image_id
               (count_likes (liked db image_id user_hash utcnow) image_id) true)).
Proof.
  intros Hu Hid Hex. unfold like_image, liked.
  assert (Hok : valid_payload (LikeAction.mk user_hash "like"))
    by (split; [done | by left]).
  apply payload_guard in Hok as ->. rewrite db_get_in_range by done.
  apply get_image_Some in Hex as [img ->]. cbn.
  unfold commit_like. by destruct (like_rows db image_id user_hash).
Qed.

Lemma like_image_unlike db image_id user_hash utcnow :
  user_hash ≠ ""%string → int64 image_id → image_exists db image_id →
  like_image db image_id (LikeAction.mk user_hash "unlike") utcnow =
    (delete_likes db image_id user_hash,
     Return (mkLikeOut image_id
               (count_likes (delete_likes db image_id user_hash) image_id) false)).
Proof.
  intros Hu Hid Hex. unfold like_image.
  assert (Hok : valid_payload (LikeAction.mk user_hash "unlike"))
    by (split; [done | by right]).
  apply payload_guard in Hok as ->. rewrite db_get_in_range by done.
  apply get_image_Some in Hex as [img ->]. done.
Qed.

Lemma liked_images db image_id user_hash utcnow :
  images (liked db image_id user_hash utcnow) = images db.
Proof.
  unfold liked, commit_like. by destruct (like_rows db image_id user_hash).
Qed.

Lemma liked_rows_absent db image_id user_hash utcnow :
  like_rows db image_id user_hash = [] →
  like_rows (liked db image_id user_hash utcnow) image_id user_hash =
    [Like.mk (next_id (Like.id <$> likes db)) image_id user_hash utcnow].
Proof.
  intros Hnil. unfold liked, commit_like. rewrite Hnil.
  unfold like_rows in *. cbn. rewrite filter_app, Hnil.
  by rewrite filter_cons_True.
Qed.

Lemma liked_rows_present db image_id user_hash utcnow :
  like_rows db image_id user_hash ≠ [] →
  liked db image_id user_hash utcnow = db.
Proof.
  intros Hne. unfold liked, commit_like.
  by destruct (like_rows db image_id user_hash).
Qed.

Lemma liked_rows_other db image_id user_hash utcnow i u :
  (i, u) ≠ (image_id, user_hash) →
  like_rows (liked db image_id user_hash utcnow) i u = like_rows db i u.
Proof.
  intros Hne. unfold liked, commit_like.
  destruct (like_rows db image_id user_hash); [|done].
  unfold like_rows. cbn. rewrite filter_app, filter_cons_False, filter_nil.
  - by rewrite app_nil_r.
  - cbn. intros [-> ->]. done.
Qed.

End LikeToggle.

Section LikeToggleClaims.
Implicit Types (db : DB) (action : LikeAction.t) (utcnow : datetime).




Lemma delete_likes_rows_le db image_id user_hash i u :
  (length (like_rows (delete_likes db image_id user_hash) i u)
   ≤ length (like_rows db i u))%nat.
Proof.
  unfold like_rows, delete_likes. cbn.
  induction (likes db) as [|l lks IH]; [done|].
  rewrite (filter_cons (λ l, ¬ _)). case_decide.
  - rewrite !filter_cons. case_decide; cbn; lia.
  - rewrite (filter_cons _ l lks). case_decide; cbn; lia.
Qed.


Lemma liked_uix db image_id user_hash utcnow :
  uix_image_user db → uix_image_user (liked db image_id user_hash utcnow).
Proof.
  intros Huix i u.
  destruct (decide ((i, u) = (image_id, user_hash))) as [[= -> ->]|Hne].
  - destruct (like_rows db image_id user_hash) as [|l rest] eqn:Hrows.
    + by rewrite liked_rows_absent.
    + rewrite liked_rows_present by (by rewrite Hrows). apply Huix.
  - rewrite liked_rows_other by done. apply Huix.
Qed.







(** C10: the payload is validated before the image is looked up. A
    request with a blank user hash or an unrecognized action is answered
    InvalidInput (400) on every store, also when the image does not
    exist, and leaves the store as it was; so NotFound (404) is only
    returned for a valid payload. *)
Theorem C10_payload_checked_first db image_id action utcnow :
  LikeAction.user_hash action = ""%string
  ∨ LikeAction.action action ∉ ["like"; "unlike"]%string →
  like_image db image_id action utcnow = (db, Raise InvalidInput) ∧
  status (like_image db image_id action utcnow).2 = 400 ∧
  (like_image db image_id action utcnow).2 ≠ Raise NotFound.
Proof.
  intros Hbad.
  assert (Hnv : ¬ valid_payload action).
  { intros [Hu Hact]. destruct Hbad as [Hb|Hb]; [done|].
    apply Hb. rewrite !elem_of_cons. tauto. }
  rewrite like_image_invalid by done. cbn.
  split; [done|]. split; [done | discriminate].
Qed.

Lemma C10_payload_checked_first_witness :
  ¬ image_exists empty_db 7 ∧
  like_image empty_db 7 (LikeAction.mk "u1" "love") today = (empty_db, Raise InvalidInput) ∧
  status (like_image empty_db 7 (LikeAction.mk "u1" "love") today).2 = 400 ∧
  (like_image empty_db 7 (LikeAction.mk "u1" "love") today).2 ≠ Raise NotFound.
Proof.
  split.
  - intros (img & Hin & _). by apply not_elem_of_nil in Hin.
  - apply (C10_payload_checked_first empty_db 7 (LikeAction.mk "u1" "love") today).
    right. cbn. rewrite !elem_of_cons, elem_of_nil.
    intros [H|[H|H]]; [discriminate H | discriminate H | exact H].
Defined.
End LikeToggleClaims.

(** * The uniqueness constraint on reachable stores *)

Section Reachable.
Context `{Pathlib}.

Lemma POST_image_likes db files base_url authorName imageName image hex utcnow :
  likes (POST_image db files base_url authorName imageName image hex utcnow).1.1
  = likes db.
Proof.
  unfold POST_image, upload_image, _create_image_record.
  destruct image as [f|]; [|done].
  by case_bool_decide.
Qed.

Lemma like_image_uix db image_id action utcnow :
  uix_image_user db → uix_image_user (like_image db image_id action utcnow).1.
Proof.
  intros Huix. unfold like_image, db_get.
  destruct (negb _ || negb _); [done|].
  destruct (bool_decide (int64 image_id)); [|done].
  destruct (get_image db image_id) as [img|]; [|done].
  case_bool_decide.
  - pose proof (liked_uix db image_id (LikeAction.user_hash action) utcnow Huix) as Hl.
    unfold liked, commit_like in *.
    by destruct (like_rows db image_id (LikeAction.user_hash action)).
  - cbn. intros i u.
    etrans; [apply delete_likes_rows_le | apply Huix].
Qed.

Lemma step_uix db db' : uix_image_user db → step db db' → uix_image_user db'.
Proof.
  intros Huix Hstep. destruct Hstep.
  - intros i u. unfold like_rows. rewrite POST_image_likes. apply Huix.
  - done.
  - by apply like_image_uix.
Qed.

(** C4: every store reachable from the empty one by uploads, listings and
    like or unlike calls holds at most one Like row per
    (image_id, user_hash) pair, and every single request preserves that. *)
Theorem C4_at_most_one_like_per_pair :
  (∀ db, reachable db →
     ∀ image_id user_hash, (length (like_rows db image_id user_hash) ≤ 1)%nat) ∧
  (∀ db db', uix_image_user db → step db db' → uix_image_user db').
Proof.
  split; [|apply step_uix].
  intros db Hreach. unfold reachable in Hreach.
  revert db Hreach.
  apply (rtc_ind_r (R:=step) uix_image_user empty_db).
  - intros i u. cbn. lia.
  - intros y z _ Hstep Huix. by apply (step_uix y z).
Qed.
End Reachable.

Lemma C4_at_most_one_like_per_pair_witness :
  (length (like_rows uploaded_liked 1 "u1") ≤ 1)%nat.
Proof.
  apply (proj1 (@C4_at_most_one_like_per_pair flat_names) uploaded_liked).
  unfold reachable, uploaded_liked, uploaded.
  eapply rtc_l; [apply step_upload|].
  eapply rtc_l; [apply step_like|].
  apply rtc_refl.
Defined.

(** * Properties of the aggregation helpers *)

Section Aggregation.
Implicit Types (db : DB) (ids keys : list Z) (rows : list (Z * Z)).

Lemma dict_of_rows_acc_notin (m : gmap Z Z) rows k :
  k ∉ rows.*1 → foldl (λ m r, <[r.1 := r.2]> m) m rows !! k = m !! k.
Proof.
  revert m. induction rows as [|[k' v'] rows IH]; intros m Hk; [done|].
  cbn in *. apply not_elem_of_cons in Hk as [Hne Hk].
  rewrite IH by done. by rewrite lookup_insert_ne.
Qed.

Lemma dict_of_rows_acc_in (m : gmap Z Z) rows k v :
  NoDup rows.*1 → (k, v) ∈ rows →
  foldl (λ m r, <[r.1 := r.2]> m) m rows !! k = Some v.
Proof.
  revert m. induction rows as [|[k' v'] rows IH]; intros m Hnd Hin.
  - by apply elem_of_nil in Hin.
  - cbn in *. apply NoDup_cons in Hnd as [Hfresh Hnd].
    apply elem_of_cons in Hin as [[= <- <-]|Hin].
    + rewrite dict_of_rows_acc_notin by done. by rewrite lookup_insert_eq.
    + by apply IH.
Qed.

Lemma group_by_count_keys keys : (group_by_count keys).*1 = remove_dups keys.
Proof.
  unfold group_by_count. rewrite <- list_fmap_compose.
  rewrite <- (list_fmap_id (remove_dups keys)) at 2.
  by apply list_fmap_ext.
Qed.

Lemma dict_of_group_by_count keys k :
  default 0 (dict_of_rows (group_by_count keys) !! k)
  = Z.of_nat (length (filter (λ k', k' = k) keys)).
Proof.
  unfold dict_of_rows. destruct (decide (k ∈ keys)) as [Hin|Hout].
  - erewrite dict_of_rows_acc_in; [done | |].
    + rewrite group_by_count_keys. apply NoDup_remove_dups.
    + unfold group_by_count.
      apply list_elem_of_fmap. exists k.
      split; [done | by apply elem_of_remove_dups].
  - rewrite dict_of_rows_acc_notin.
    + rewrite lookup_empty. cbn.
      replace (filter (λ k', k' = k) keys) with (@nil Z); [done|].
      symmetry. apply elem_of_nil_inv. intros x Hx.
      apply list_elem_of_filter in Hx as [-> Hx]. done.
    + rewrite group_by_count_keys. by rewrite elem_of_remove_dups.
Qed.

Lemma count_selected_keys (lks : list Like.t) ids k :
  k ∈ ids →
  length (filter (λ k', k' = k)
            (Like.image_id <$> filter (λ l, Like.image_id l ∈ ids) lks))
  = length (filter (λ l, Like.image_id l = k) lks).
Proof.
  intros Hk. induction lks as [|l lks IH]; [done|].
  rewrite (filter_cons (λ l, Like.image_id l ∈ ids)).
  rewrite (filter_cons (λ l, Like.image_id l = k)).
  destruct (decide (Like.image_id l = k)) as [Heq|Hne].
  - rewrite decide_True by (by rewrite Heq).
    rewrite fmap_cons, filter_cons_True by done. cbn. by rewrite IH.
  - case_decide; [|done].
    rewrite fmap_cons, filter_cons_False by done. done.
Qed.

(** The callers' [total_likes_map.get(id, 0)] is the number of Like rows
    of the image, for every id that was asked for. *)
Lemma _get_total_likes_for_ids_get db ids k :
  k ∈ ids → default 0 (_get_total_likes_for_ids db ids !! k) = count_likes db k.
Proof.
  intros Hk. unfold _get_total_likes_for_ids, count_likes.
  destruct ids as [|i ids]; [by apply elem_of_nil in Hk|].
  rewrite dict_of_group_by_count. by rewrite count_selected_keys.
Qed.
End Aggregation.

(** * Properties of the feed builder *)

Section FeedBuilder.
Implicit Types (db : DB) (sort base_url : string) (utcnow : datetime).

Lemma filter_iff_on {A} (P Q : A → Prop)
    `{!∀ x, Decision (P x), !∀ x, Decision (Q x)} (l : list A) :
  (∀ x, x ∈ l → P x ↔ Q x) → filter P l = filter Q l.
Proof.
  induction l as [|x l IH]; intros Hiff; [done|].
  assert (Hx : P x ↔ Q x) by (apply Hiff; left).
  assert (Hl : filter P l = filter Q l)
    by (apply IH; intros y Hy; apply Hiff; by right).
  rewrite !filter_cons, Hl.
  destruct (decide (P x)), (decide (Q x)); tauto.
Qed.

Lemma offset_limit_fmap {A B} (f : A → B) (skip limit : Z) (rows : list A) :
  f <$> offset_limit skip limit rows = offset_limit skip limit (f <$> rows).
Proof. unfold offset_limit. by rewrite fmap_take, fmap_drop. Qed.

Lemma fst_keyed {A} (key : A → Z) (rows : list A) :
  fst <$> ((λ x, (x, key x)) <$> rows) = rows.
Proof.
  rewrite <- list_fmap_compose. rewrite <- (list_fmap_id rows) at 2.
  by apply list_fmap_ext.
Qed.

Lemma insert_desc_perm {A} (key : A → Z) (x : A) (rows : list A) :
  insert_desc key x rows ≡ₚ x :: rows.
Proof.
  induction rows as [|y rest IH]; [done|]. cbn.
  case_decide; [done|]. rewrite IH. apply Permutation_swap.
Qed.

Lemma insert_desc_sorted {A} (key : A → Z) (x : A) (rows : list A) :
  StronglySorted (desc_by key) rows →
  StronglySorted (desc_by key) (insert_desc key x rows).
Proof.
  intros Hsorted. induction Hsorted as [|y rest Hs IH Hall].
  - cbn. repeat constructor.
  - cbn. rewrite Forall_forall in Hall. case_decide as Hle.
    + constructor; [by constructor; [|apply Forall_forall]|].
      apply Forall_forall. intros z Hz. unfold desc_by.
      apply elem_of_cons in Hz as [->|Hz]; [done|].
      specialize (Hall z Hz). unfold desc_by in Hall. lia.
    + constructor; [done|]. apply Forall_forall. intros z Hz.
      rewrite insert_desc_perm in Hz. unfold desc_by.
      apply elem_of_cons in Hz as [->|Hz]; [lia | by apply Hall].
Qed.

Lemma order_by_desc_perm {A} (key : A → Z) (rows : list A) :
  order_by_desc key rows ≡ₚ rows.
Proof.
  unfold order_by_desc. induction rows as [|x rows IH]; [done|].
  cbn. by rewrite insert_desc_perm, IH.
Qed.

Lemma order_by_desc_sorted {A} (key : A → Z) (rows : list A) :
  StronglySorted (desc_by key) (order_by_desc key rows).
Proof.
  unfold order_by_desc. induction rows as [|x rows IH]; [constructor|].
  cbn. by apply insert_desc_sorted.
Qed.

(** A sort on (row, key) pairs by the key is a sort of the rows. *)
Lemma sorted_keyed_fst {A} (key : A → Z) (rows : list (A * Z)) :
  (∀ p, p ∈ rows → p.2 = key p.1) →
  StronglySorted (desc_by snd) rows →
  StronglySorted (desc_by key) (fst <$> rows).
Proof.
  intros Hkey Hsorted. induction Hsorted as [|p rows Hs IH Hall]; [constructor|].
  cbn. constructor.
  - apply IH. intros q Hq. apply Hkey. by right.
  - apply Forall_forall. intros a Ha.
    apply list_elem_of_fmap in Ha as (q & -> & Hq).
    rewrite Forall_forall in Hall. specialize (Hall q Hq).
    unfold desc_by in *.
    rewrite <- (Hkey p) by left. rewrite <- (Hkey q) by (by right). done.
Qed.

Lemma order_by_keyed_sorted {A} (key : A → Z) (rows : list A) :
  StronglySorted (desc_by key)
    (fst <$> order_by_desc snd ((λ x, (x, key x)) <$> rows)).
Proof.
  apply sorted_keyed_fst; [|apply order_by_desc_sorted].
  intros p Hp. rewrite order_by_desc_perm in Hp.
  apply list_elem_of_fmap in Hp as (x & -> & _). done.
Qed.

Lemma order_by_keyed_perm {A} (key : A → Z) (rows : list A) :
  fst <$> order_by_desc snd ((λ x, (x, key x)) <$> rows) ≡ₚ rows.
Proof. by rewrite order_by_desc_perm, fst_keyed. Qed.

(** Every strategy lists every image of the store, once. *)
Lemma ranking_perm db sort utcnow : ranking db sort utcnow ≡ₚ images db.
Proof.
  unfold ranking. repeat case_bool_decide;
    auto using order_by_keyed_perm, order_by_desc_perm.
Qed.

Lemma ranking_recent_sorted db sort utcnow :
  sort ∉ ["popular"; "trending"]%string →
  StronglySorted (desc_by Image.created_at) (ranking db sort utcnow).
Proof.
  intros Hs. unfold ranking. rewrite !not_elem_of_cons in Hs.
  rewrite !bool_decide_eq_false_2 by tauto. apply order_by_desc_sorted.
Qed.

Lemma ranking_popular_sorted db utcnow :
  StronglySorted (desc_by (likes_total db)) (ranking db "popular" utcnow).
Proof. apply order_by_keyed_sorted. Qed.

Lemma ranking_trending_sorted db utcnow :
  StronglySorted (desc_by (likes_week db (utcnow - timedelta_days 7)))
    (ranking db "trending" utcnow).
Proof. apply order_by_keyed_sorted. Qed.

Lemma rendered_page_page db base_url skip limit sort user_hash utcnow :
  ∃ liked_ids,
    rendered_page db base_url skip limit sort user_hash utcnow =
    image_out (rstrip "/" base_url)
      (_get_total_likes_for_ids db (Image.id <$> page_of db skip limit sort utcnow))
      liked_ids
    <$> page_of db skip limit sort utcnow.
Proof. eexists. reflexivity. Qed.

(** Within the range the driver binds, [_db_work] returns the rendered
    page; outside it, the statement is refused. *)
Lemma _db_work_in_range db base_url skip limit sort user_hash utcnow :
  int64 skip → int64 limit →
  _db_work db base_url skip limit sort user_hash utcnow
  = Return (rendered_page db base_url skip limit sort user_hash utcnow).
Proof.
  intros Hskip Hlimit.
  unfold _db_work, execute_offset_limit, rendered_page, page_of, ranking.
  rewrite !(bool_decide_eq_true_2 (int64 skip ∧ int64 limit)) by done.
  repeat case_bool_decide; subst; try discriminate; cbn;
    rewrite ?(offset_limit_fmap fst); reflexivity.
Qed.

Lemma _db_work_overflow db base_url skip limit sort user_hash utcnow :
  ¬ (int64 skip ∧ int64 limit) →
  _db_work db base_url skip limit sort user_hash utcnow = Raise OverflowError.
Proof.
  intros Hout. unfold _db_work, execute_offset_limit.
  rewrite !(bool_decide_eq_false_2 (int64 skip ∧ int64 limit)) by done.
  by repeat case_bool_decide.
Qed.

Lemma rendered_page_ids db base_url skip limit sort user_hash utcnow :
  ImageOut.id <$> rendered_page db base_url skip limit sort user_hash utcnow
  = Image.id <$> page_of db skip limit sort utcnow.
Proof.
  destruct (rendered_page_page db base_url skip limit sort user_hash utcnow) as [liked ->].
  rewrite <- list_fmap_compose. by apply list_fmap_ext.
Qed.

(** Each view model of a page shows one image of the page, with the
    number of its Like rows; and each image of the page is shown. *)
Lemma rendered_page_views db base_url skip limit sort user_hash utcnow vm :
  vm ∈ rendered_page db base_url skip limit sort user_hash utcnow →
  ∃ img, img ∈ page_of db skip limit sort utcnow ∧
    view_of img vm ∧
    ImageOut.likes_count vm = count_likes db (Image.id img).
Proof.
  destruct (rendered_page_page db base_url skip limit sort user_hash utcnow)
    as [liked ->].
  intros Hvm. apply list_elem_of_fmap in Hvm as (img & -> & Himg).
  exists img. split; [done|]. split; [by unfold view_of|]. cbn.
  apply _get_total_likes_for_ids_get. by apply list_elem_of_fmap_2.
Qed.

Lemma rendered_page_shows db base_url skip limit sort user_hash utcnow img :
  img ∈ page_of db skip limit sort utcnow →
  ∃ vm, vm ∈ rendered_page db base_url skip limit sort user_hash utcnow ∧
    view_of img vm ∧
    ImageOut.likes_count vm = count_likes db (Image.id img).
Proof.
  destruct (rendered_page_page db base_url skip limit sort user_hash utcnow)
    as [liked ->].
  intros Himg. eexists. split; [by apply list_elem_of_fmap_2|].
  split; [by unfold view_of|]. cbn.
  apply _get_total_likes_for_ids_get. by apply list_elem_of_fmap_2.
Qed.
End FeedBuilder.

Section FeedBuilderClaims.
Implicit Types (db : DB) (sort base_url : string) (utcnow : datetime).

Lemma clamp_page_max page : Z.max 1 page = clamp_page page.
Proof. unfold clamp_page. case_decide; lia. Qed.

Lemma clamp_limit_max_min limit : Z.max 1 (Z.min 100 limit) = clamp_limit limit.
Proof. unfold clamp_limit. repeat case_decide; lia. Qed.

Lemma clamp_limit_range limit : 1 ≤ clamp_limit limit ≤ 100.
Proof. unfold clamp_limit. repeat case_decide; lia. Qed.

Lemma int64_clamp_limit limit : int64 (clamp_limit limit).
Proof. pose proof (clamp_limit_range limit). unfold int64. lia. Qed.

Lemma offset_of_nonneg page limit : 0 ≤ offset_of page limit.
Proof.
  pose proof (clamp_limit_range limit). unfold offset_of, clamp_page.
  case_decide; nia.
Qed.

Lemma int64_offset_of page limit :
  int64 (offset_of page limit) ↔ offset_of page limit < 2 ^ 63.
Proof. pose proof (offset_of_nonneg page limit). unfold int64. lia. Qed.

Lemma list_images_clamped db base_url page limit sort user_hash utcnow :
  list_images db base_url page limit sort user_hash utcnow =
  _db_work db base_url (offset_of page limit) (clamp_limit limit) sort user_hash utcnow.
Proof.
  unfold list_images, offset_of. by rewrite clamp_page_max, clamp_limit_max_min.
Qed.

Lemma list_images_unfold db base_url page limit sort user_hash utcnow :
  int64 (offset_of page limit) →
  list_images db base_url page limit sort user_hash utcnow =
  Return (rendered_page db base_url ((clamp_page page - 1) * clamp_limit limit)
            (clamp_limit limit) sort user_hash utcnow).
Proof.
  intros Hskip. rewrite list_images_clamped.
  by rewrite _db_work_in_range by (done || apply int64_clamp_limit).
Qed.

Lemma list_images_overflow db base_url page limit sort user_hash utcnow :
  ¬ int64 (offset_of page limit) →
  list_images db base_url page limit sort user_hash utcnow = Raise OverflowError.
Proof.
  intros Hskip. rewrite list_images_clamped. apply _db_work_overflow. tauto.
Qed.

(** A returned listing is the rendered page, and its offset is in range. *)
Lemma list_images_returned db base_url page limit sort user_hash utcnow res :
  list_images db base_url page limit sort user_hash utcnow = Return res →
  int64 (offset_of page limit) ∧
  res = rendered_page db base_url ((clamp_page page - 1) * clamp_limit limit)
          (clamp_limit limit) sort user_hash utcnow.
Proof.
  intros Hres. destruct (decide (int64 (offset_of page limit))) as [Hin|Hout].
  - rewrite list_images_unfold in Hres by done. by injection Hres as <-.
  - rewrite list_images_overflow in Hres by done. discriminate.
Qed.

Lemma ranking_sorted db sort utcnow :
  StronglySorted (desc_by (sort_key db sort utcnow)) (ranking db sort utcnow).
Proof.
  unfold ranking, sort_key. repeat case_bool_decide;
    auto using order_by_keyed_sorted, order_by_desc_sorted.
Qed.

(** The claim C6 as it is written fails: a page number whose offset does
    not fit a signed 64-bit integer is not clamped away, and the statement
    is refused by the driver. *)
Lemma C6_never_errors_counterexample :
  list_images gallery "http://localhost:8000/" (2 ^ 62) 100 "recent" None today
    = Raise OverflowError ∧
  status (list_images gallery "http://localhost:8000/" (2 ^ 62) 100 "recent" None today)
    = 500 ∧
  offset_of (2 ^ 62) 100 = (2 ^ 62 - 1) * 100.
Proof. split; [|split]; by vm_compute. Qed.

(** C6 (amended): for every integer [page] and [limit], [page] is raised to
    at least 1 and [limit] brought into [1, 100], and the statement is run
    with the offset (clamped page - 1) * clamped limit. The listing returns
    exactly when that offset is below 2^63, and is refused with
    OverflowError otherwise; when it returns, its rows are the window of
    the clamped limit at that offset of an ordering of all images by the
    key of the sort strategy. No parameter below its range makes it fail:
    [page = 0] or a negative page lists like [page = 1], [limit = 0] or a
    negative limit like [limit = 1], and [limit = 500] like [limit = 100]. *)
Theorem C6_pagination_clamped db base_url page limit sort user_hash utcnow :
  list_images db base_url page limit sort user_hash utcnow
    = _db_work db base_url ((clamp_page page - 1) * clamp_limit limit)
        (clamp_limit limit) sort user_hash utcnow ∧
  1 ≤ clamp_page page ∧
  1 ≤ clamp_limit limit ≤ 100 ∧
  ((∃ res, list_images db base_url page limit sort user_hash utcnow = Return res)
   ↔ (clamp_page page - 1) * clamp_limit limit < 2 ^ 63) ∧
  (list_images db base_url page limit sort user_hash utcnow = Raise OverflowError
   ↔ 2 ^ 63 ≤ (clamp_page page - 1) * clamp_limit limit) ∧
  (∀ res, list_images db base_url page limit sort user_hash utcnow = Return res →
     (length res ≤ 100)%nat ∧
     ∃ ranked,
       ranked ≡ₚ images db ∧
       StronglySorted (desc_by (sort_key db sort utcnow)) ranked ∧
       ImageOut.id <$> res =
         Image.id <$>
           take (Z.to_nat (clamp_limit limit))
             (drop (Z.to_nat ((clamp_page page - 1) * clamp_limit limit)) ranked)) ∧
  (page ≤ 1 →
     ∃ res, list_images db base_url page limit sort user_hash utcnow = Return res) ∧
  list_images db base_url 0 limit sort user_hash utcnow
    = list_images db base_url 1 limit sort user_hash utcnow ∧
  list_images db base_url (-3) limit sort user_hash utcnow
    = list_images db base_url 1 limit sort user_hash utcnow ∧
  list_images db base_url page 0 sort user_hash utcnow
    = list_images db base_url page 1 sort user_hash utcnow ∧
  list_images db base_url page (-7) sort user_hash utcnow
    = list_images db base_url page 1 sort user_hash utcnow ∧
  list_images db base_url page 500 sort user_hash utcnow
    = list_images db base_url page 100 sort user_hash utcnow.
Proof.
  pose proof (clamp_limit_range limit) as Hl.
  pose proof (int64_offset_of page limit) as Hrange. unfold offset_of in Hrange.
  split; [apply list_images_clamped|].
  split; [unfold clamp_page; case_decide; lia|].
  split; [done|].
  split.
  { split.
    - intros [res Hres]. apply list_images_returned in Hres as [Hin _].
      exact (proj1 Hrange Hin).
    - intros Hlt. eexists. apply list_images_unfold. exact (proj2 Hrange Hlt). }
  split.
  { split.
    - intros Hraise.
      destruct (decide (int64 (offset_of page limit))) as [Hin|Hout].
      + rewrite list_images_unfold in Hraise by done. discriminate.
      + assert (Hnlt : ¬ (clamp_page page - 1) * clamp_limit limit < 2 ^ 63)
          by (intros Hlt; apply Hout; exact (proj2 Hrange Hlt)).
        lia.
    - intros Hge. apply list_images_overflow. intros Hin.
      pose proof (proj1 Hrange Hin). lia. }
  split.
  { intros res Hres. apply list_images_returned in Hres as [_ ->].
    pose proof (f_equal length
                  (rendered_page_ids db base_url ((clamp_page page - 1) * clamp_limit limit)
                     (clamp_limit limit) sort user_hash utcnow)) as Hlen.
    rewrite !length_fmap in Hlen. split.
    - rewrite Hlen. unfold page_of, offset_limit. rewrite length_take. lia.
    - exists (ranking db sort utcnow).
      split; [apply ranking_perm|]. split; [apply ranking_sorted|].
      apply rendered_page_ids. }
  split.
  { intros Hpage. eexists. apply list_images_unfold. apply (proj2 Hrange).
    unfold clamp_page. case_decide; [lia|].
    replace page with 1 by lia. lia. }
  by rewrite !list_images_clamped.
Qed.

Lemma C6_pagination_clamped_witness :
  (length (rendered_page gallery "http://localhost:8000/" 1 1 "recent" None today)
   ≤ 100)%nat ∧
  ∃ ranked,
    ranked ≡ₚ images gallery ∧
    StronglySorted (desc_by (sort_key gallery "recent" today)) ranked ∧
    ImageOut.id <$> rendered_page gallery "http://localhost:8000/" 1 1 "recent" None today
      = Image.id <$> take (Z.to_nat (clamp_limit 1))
                       (drop (Z.to_nat ((clamp_page 2 - 1) * clamp_limit 1)) ranked).
Proof.
  destruct (C6_pagination_clamped gallery "http://localhost:8000/" 2 1 "recent" None today)
    as (_ & _ & _ & _ & _ & Hres & _).
  apply Hres. reflexivity.
Defined.

(** The claim C7 as it is written fails: with an unrecognized sort value
    the listing does fail when the offset of the page is no signed 64-bit
    integer, as it does for "recent". *)
Lemma C7_never_errors_counterexample :
  ("bogus"%string ∉ ["recent"; "popular"; "trending"]%string) ∧
  list_images gallery "http://localhost:8000/" (2 ^ 62) 100 "bogus" None today
    = Raise OverflowError ∧
  list_images gallery "http://localhost:8000/" (2 ^ 62) 100 "recent" None today
    = Raise OverflowError.
Proof.
  split; [|split; by vm_compute].
  rewrite !elem_of_cons, elem_of_nil.
  intros [H|[H|[H|H]]]; [discriminate H | discriminate H | discriminate H | exact H].
Qed.

(** C7 (amended): a sort value that is none of "recent", "popular" and
    "trending" gives exactly what "recent" gives on the same store with the
    same pagination parameters, the same rows in the same order or the same
    failure; it raises nothing when the offset of the page fits a signed
    64-bit integer. *)
Theorem C7_unknown_sort_is_recent db base_url page limit sort user_hash utcnow :
  sort ∉ ["recent"; "popular"; "trending"]%string →
  list_images db base_url page limit sort user_hash utcnow
    = list_images db base_url page limit "recent" user_hash utcnow ∧
  (int64 (offset_of page limit) →
   ∃ res, list_images db base_url page limit sort user_hash utcnow = Return res).
Proof.
  intros Hs. rewrite !not_elem_of_cons in Hs. destruct Hs as (Hr & Hp & Ht & _).
  split; [|intros Hin; eexists; by apply list_images_unfold].
  unfold list_images, _db_work.
  by rewrite !(bool_decide_eq_false_2 (sort = _)) by done.
Qed.

Lemma C7_unknown_sort_is_recent_witness :
  list_images gallery_liked "http://localhost:8000/" 1 20 "bogus" (Some "u1"%string) today
    = list_images gallery_liked "http://localhost:8000/" 1 20 "recent"
        (Some "u1"%string) today ∧
  ∃ res,
    list_images gallery_liked "http://localhost:8000/" 1 20 "bogus"
      (Some "u1"%string) today = Return res.
Proof.
  destruct (C7_unknown_sort_is_recent gallery_liked "http://localhost:8000/" 1 20 "bogus"
              (Some "u1"%string) today) as [Hsame Hreturns].
  - rewrite !elem_of_cons, elem_of_nil.
    intros [H|[H|[H|H]]]; [discriminate H | discriminate H | discriminate H | exact H].
  - split; [exact Hsame|]. apply Hreturns. vm_compute. split; [discriminate | reflexivity].
Defined.

(** C5: with sort "trending" a listing whose offset the driver accepts is a
    window of a ranking that holds every image of the store, also those
    without recent likes, by decreasing number of Like rows whose
    [created_at] is not earlier than seven days before now; when no Like
    row is dated after now, these are the rows of the seven days that end
    now. With sort "popular" it is such a window by decreasing total
    number of Like rows. In the scenario where A has two likes that are
    ten days old and B has one like from yesterday, "trending" lists B
    before A and "popular" lists A before B; in the mirrored scenario the
    two orders are exchanged. *)
Theorem C5_trending_counts_last_week db base_url page limit user_hash utcnow :
  int64 (offset_of page limit) →
  ((∀ l, l ∈ likes db → Like.created_at l ≤ utcnow) →
   ∀ img, likes_week db (utcnow - 7 * 86400000000) img
          = likes_in_window db (utcnow - 7 * 86400000000) utcnow img) ∧
  (∃ ranked res,
     ranked ≡ₚ images db ∧
     StronglySorted
       (λ a b, likes_week db (utcnow - 7 * 86400000000) b
               ≤ likes_week db (utcnow - 7 * 86400000000) a) ranked ∧
     list_images db base_url page limit "trending" user_hash utcnow = Return res ∧
     ImageOut.id <$> res =
       Image.id <$>
         take (Z.to_nat (clamp_limit limit))
           (drop (Z.to_nat ((clamp_page page - 1) * clamp_limit limit)) ranked)) ∧
  (∃ ranked res,
     ranked ≡ₚ images db ∧
     StronglySorted (λ a b, likes_total db b ≤ likes_total db a) ranked ∧
     list_images db base_url page limit "popular" user_hash utcnow = Return res ∧
     ImageOut.id <$> res =
       Image.id <$>
         take (Z.to_nat (clamp_limit limit))
           (drop (Z.to_nat ((clamp_page page - 1) * clamp_limit limit)) ranked)) ∧
  (∃ b a,
     list_images gallery_liked base_url 1 20 "trending" user_hash today = Return [b; a] ∧
     view_of image_B b ∧ view_of image_A a ∧
     ImageOut.likes_count b = 1 ∧ ImageOut.likes_count a = 2) ∧
  (∃ a b,
     list_images gallery_liked base_url 1 20 "popular" user_hash today = Return [a; b] ∧
     view_of image_A a ∧ view_of image_B b ∧
     ImageOut.likes_count a = 2 ∧ ImageOut.likes_count b = 1) ∧
  (∃ a b,
     list_images gallery_liked_late base_url 1 20 "trending" user_hash today
       = Return [a; b] ∧
     view_of image_A a ∧ view_of image_B b ∧
     ImageOut.likes_count a = 1 ∧ ImageOut.likes_count b = 2) ∧
  (∃ b a,
     list_images gallery_liked_late base_url 1 20 "popular" user_hash today
       = Return [b; a] ∧
     view_of image_B b ∧ view_of image_A a ∧
     ImageOut.likes_count b = 2 ∧ ImageOut.likes_count a = 1).
Proof.
  intros Hin.
  assert (Hfirst : int64 (offset_of 1 20)) by (vm_compute; by split).
  split; [|split; [|split; [|split; [|split; [|split]]]]].
  - intros Hpast img. unfold likes_week, likes_in_window. do 2 f_equal.
    apply filter_iff_on. intros l Hl. specialize (Hpast l Hl). lia.
  - exists (ranking db "trending" utcnow). eexists.
    split; [apply ranking_perm|].
    split; [apply (ranking_trending_sorted db utcnow)|].
    split; [by apply list_images_unfold | apply rendered_page_ids].
  - exists (ranking db "popular" utcnow). eexists.
    split; [apply ranking_perm|].
    split; [apply (ranking_popular_sorted db utcnow)|].
    split; [by apply list_images_unfold | apply rendered_page_ids].
  - eexists _, _. split.
    + rewrite list_images_unfold by done. unfold rendered_page.
      change (page_of gallery_liked ((clamp_page 1 - 1) * clamp_limit 20)
                (clamp_limit 20) "trending" today) with [image_B; image_A].
      reflexivity.
    + by vm_compute.
  - eexists _, _. split.
    + rewrite list_images_unfold by done. unfold rendered_page.
      change (page_of gallery_liked ((clamp_page 1 - 1) * clamp_limit 20)
                (clamp_limit 20) "popular" today) with [image_A; image_B].
      reflexivity.
    + by vm_compute.
  - eexists _, _. split.
    + rewrite list_images_unfold by done. unfold rendered_page.
      change (page_of gallery_liked_late ((clamp_page 1 - 1) * clamp_limit 20)
                (clamp_limit 20) "trending" today) with [image_A; image_B].
      reflexivity.
    + by vm_compute.
  - eexists _, _. split.
    + rewrite list_images_unfold by done. unfold rendered_page.
      change (page_of gallery_liked_late ((clamp_page 1 - 1) * clamp_limit 20)
                (clamp_limit 20) "popular" today) with [image_B; image_A].
      reflexivity.
    + by vm_compute.
Qed.

Lemma C5_trending_counts_last_week_witness :
  likes_week gallery_liked (today - 7 * 86400000000) image_B
    = likes_in_window gallery_liked (today - 7 * 86400000000) today image_B ∧
  ∃ ranked res,
    ranked ≡ₚ images gallery_liked ∧
    StronglySorted (λ a b, likes_total gallery_liked b ≤ likes_total gallery_liked a)
      ranked ∧
    list_images gallery_liked "http://localhost:8000/" 2 1 "popular" None today
      = Return res ∧
    ImageOut.id <$> res =
      Image.id <$>
        take (Z.to_nat (clamp_limit 1))
          (drop (Z.to_nat ((clamp_page 2 - 1) * clamp_limit 1)) ranked).
Proof.
  destruct (C5_trending_counts_last_week gallery_liked "http://localhost:8000/"
              2 1 None today) as (Hwindow & _ & Hpopular & _).
  - vm_compute. split; [discriminate | reflexivity].
  - split; [|exact Hpopular]. apply Hwindow.
    intros l Hl. cbn in Hl. rewrite !elem_of_cons, elem_of_nil in Hl.
    destruct Hl as [->|[->|[->|[]]]]; vm_compute; discriminate.
Defined.

(** Pages of [n] rows cover the whole ranking: the row at index [i] is
    on the page that starts at offset [i / n * n]. *)
Lemma window_covers {A} (rows : list A) (n i : nat) (x : A) :
  (0 < n)%nat → rows !! i = Some x →
  x ∈ take n (drop (Nat.div i n * n) rows).
Proof.
  intros Hn Hi. apply elem_of_take. exists (Nat.modulo i n). split.
  - rewrite lookup_drop.
    replace (Nat.div i n * n + Nat.modulo i n)%nat with i; [done|].
    rewrite (Nat.div_mod_eq i n) at 1. lia.
  - apply Nat.mod_upper_bound. lia.
Qed.

Lemma listed_on_some_page db base_url limit sort user_hash utcnow img :
  Z.of_nat (length (images db)) < 2 ^ 63 →
  img ∈ images db →
  ∃ page res vm,
    list_images db base_url page limit sort user_hash utcnow = Return res ∧
    vm ∈ res ∧ view_of img vm ∧
    ImageOut.likes_count vm = count_likes db (Image.id img).
Proof.
  intros Hrows Himg. rewrite <- (ranking_perm db sort utcnow) in Himg.
  apply list_elem_of_lookup in Himg as [i Hi].
  pose proof (clamp_limit_range limit) as Hl.
  set (n := Z.to_nat (clamp_limit limit)).
  assert (Hi' : (i < length (images db))%nat).
  { rewrite <- (ranking_perm db sort utcnow). by eapply lookup_lt_Some. }
  assert (Hoff : (clamp_page (Z.of_nat (Nat.div i n) + 1) - 1) * clamp_limit limit
                 = Z.of_nat (Nat.div i n * n)).
  { unfold clamp_page. rewrite decide_False by lia. lia. }
  assert (Hle : (Nat.div i n * n ≤ i)%nat).
  { rewrite Nat.mul_comm. apply Nat.Div0.mul_div_le. }
  exists (Z.of_nat (Nat.div i n) + 1).
  destruct (rendered_page_shows db base_url
              ((clamp_page (Z.of_nat (Nat.div i n) + 1) - 1) * clamp_limit limit)
              (clamp_limit limit) sort user_hash utcnow img) as (vm & Hvm).
  - unfold page_of, offset_limit.
    replace (Z.to_nat ((clamp_page (Z.of_nat (Nat.div i n) + 1) - 1) * clamp_limit limit))
      with (Nat.div i n * n)%nat.
    + apply window_covers; [lia | done].
    + rewrite Hoff. lia.
  - eexists _, vm. split; [|exact Hvm].
    apply list_images_unfold. unfold int64, offset_of. rewrite Hoff. lia.
Qed.

Lemma _get_total_likes_for_ids_absent db ids k :
  filter (λ l, Like.image_id l = k) (likes db) = [] →
  _get_total_likes_for_ids db ids !! k = None.
Proof.
  intros Hnone. unfold _get_total_likes_for_ids.
  destruct ids as [|i ids]; [apply lookup_empty|].
  unfold dict_of_rows. rewrite dict_of_rows_acc_notin; [apply lookup_empty|].
  rewrite group_by_count_keys, elem_of_remove_dups.
  intros Hk. apply list_elem_of_fmap in Hk as (l & -> & Hl).
  apply list_elem_of_filter in Hl as [_ Hl].
  assert (Hin : l ∈ filter (λ l', Like.image_id l' = Like.image_id l) (likes db))
    by (by apply list_elem_of_filter).
  rewrite Hnone in Hin. by apply elem_of_nil in Hin.
Qed.

(** C8: an image without Like rows is still ranked by "popular" and by
    "trending", so for every page size it is on some page of the listing
    (the table holding fewer than 2^63 rows, as every table of the store
    does);
    the total-likes mapping has no entry for it, and every view model of
    it in a listing carries [likes_count = 0]. *)
Theorem C8_unliked_images_are_listed db base_url limit sort user_hash utcnow img :
  Z.of_nat (length (images db)) < 2 ^ 63 →
  img ∈ images db →
  filter (λ l, Like.image_id l = Image.id img) (likes db) = [] →
  sort ∈ ["popular"; "trending"]%string →
  img ∈ ranking db sort utcnow ∧
  (∃ page res vm,
     list_images db base_url page limit sort user_hash utcnow = Return res ∧
     vm ∈ res ∧ view_of img vm ∧ ImageOut.likes_count vm = 0) ∧
  (∀ ids, _get_total_likes_for_ids db ids !! Image.id img = None) ∧
  (∀ page res vm,
     list_images db base_url page limit sort user_hash utcnow = Return res →
     vm ∈ res → ImageOut.id vm = Image.id img → ImageOut.likes_count vm = 0).
Proof.
  intros Hrows Himg Hnone _.
  assert (Hzero : count_likes db (Image.id img) = 0)
    by (unfold count_likes; by rewrite Hnone).
  split; [by rewrite ranking_perm|].
  split.
  { destruct (listed_on_some_page db base_url limit sort user_hash utcnow img
                Hrows Himg)
      as (page & res & vm & Hres & Hvm & Hview & Hcount).
    exists page, res, vm. by rewrite <- Hzero. }
  split; [intros ids; by apply _get_total_likes_for_ids_absent|].
  intros page res vm Hres Hvm Hid.
  apply list_images_returned in Hres as [_ ->].
  apply rendered_page_views in Hvm as (img' & _ & Hview & ->).
  destruct Hview as [Hid' _]. by rewrite <- Hid', Hid.
Qed.

Lemma C8_unliked_images_are_listed_witness :
  image_B ∈ ranking gallery "popular" today ∧
  (∃ page res vm,
     list_images gallery "http://localhost:8000/" page 1 "popular" None today
       = Return res ∧
     vm ∈ res ∧ view_of image_B vm ∧ ImageOut.likes_count vm = 0) ∧
  (∀ ids, _get_total_likes_for_ids gallery ids !! Image.id image_B = None) ∧
  (∀ page res vm,
     list_images gallery "http://localhost:8000/" page 1 "popular" None today
       = Return res →
     vm ∈ res → ImageOut.id vm = Image.id image_B → ImageOut.likes_count vm = 0).
Proof.
  apply (C8_unliked_images_are_listed gallery "http://localhost:8000/" 1 "popular"
           None today image_B).
  - cbn. lia.
  - right. left.
  - reflexivity.
  - left.
Defined.
End FeedBuilderClaims.

(** * Properties of the upload route *)

Section Upload.
Context `{Pathlib}.
Implicit Types (db : DB) (files : FileStore) (base_url hex : string).

(** A stored upload is answered with the view model of the new row, with
    no likes. *)
Lemma POST_image_stored db files base_url authorName imageName f hex utcnow :
  (hex +:+ or_else (Some (Path_suffix (or_else (filename f) "upload"))) ".png")%string
    ∉ Image.stored_filename <$> images db →
  ∃ img vm,
    POST_image db files base_url authorName imageName (Some f) hex utcnow =
      (mkDB (images db ++ [img]) (likes db),
       <[Image.stored_filename img := contents f]> files,
       Return vm) ∧
    view_of img vm ∧
    Image.id img = next_id (Image.id <$> images db) ∧
    ImageOut.likes_count vm = 0 ∧
    ImageOut.liked_by_user vm = false.
Proof.
  intros Hfresh. unfold POST_image, upload_image, _create_image_record.
  rewrite bool_decide_eq_false_2 by done.
  set (original := or_else (filename f) "upload").
  set (stored := (hex +:+ or_else (Some (Path_suffix original)) ".png")%string).
  exists (Image.mk (next_id (Image.id <$> images db)) authorName imageName
            (Path_name original) stored (upload_content_type f)
            (Some (Z.of_nat (length (contents f)))) utcnow).
  eexists. split; [reflexivity|]. by unfold view_of.
Qed.

(** C9: a form without the part [image] is refused by the validation of
    the route with status 422 and never reaches the handler, whose own
    answer to a missing file would be 400; no request to the route is
    answered 400. *)
Theorem C9_upload_without_file db files base_url authorName imageName image hex utcnow :
  POST_image db files base_url authorName imageName None hex utcnow
    = (db, files, Raise RequestValidationError) ∧
  status (POST_image db files base_url authorName imageName None hex utcnow).2 = 422 ∧
  upload_image db files base_url authorName imageName None hex utcnow
    = (db, files, Raise (HTTPException 400 "No image file provided")) ∧
  status (POST_image db files base_url authorName imageName image hex utcnow).2 ≠ 400.
Proof.
  split; [done|]. split; [done|]. split; [done|].
  unfold POST_image, upload_image, _create_image_record.
  destruct image as [f|]; [|done].
  by case_bool_decide.
Qed.
End Upload.

(** * The scenarios of the specification, evaluated *)

Section Scenarios.
Let base : string := "http://localhost:8000/".
Let u1_likes_A : LikeAction.t := LikeAction.mk "u1" "like".
Let u1_unlikes_A : LikeAction.t := LikeAction.mk "u1" "unlike".

(** "u1" likes A twice in a row: A has one like, by u1; B is unaffected. *)
Example scenario_like_twice :
  summary
    (list_images
       (like_image (like_image gallery 1 u1_likes_A (3 * day)).1 1 u1_likes_A (4 * day)).1
       base 1 20 "recent" (Some "u1"%string) today)
  = [(2, 0, false); (1, 1, true)].
Proof. by vm_compute. Qed.

(** "u1" likes A, then unlikes it. *)
Example scenario_like_unlike :
  (like_image (like_image gallery 1 u1_likes_A (3 * day)).1 1 u1_unlikes_A (4 * day)).2
  = Return (mkLikeOut 1 0 false).
Proof. by vm_compute. Qed.

(** Three images, "recent", page 1 of size 2: the two newest, newest first;
    page 2 holds the oldest and page 3 is empty. *)
Example scenario_recent_pages :
  summary (list_images three_images base 1 2 "recent" None today)
    = [(3, 0, false); (2, 0, false)] ∧
  summary (list_images three_images base 2 2 "recent" None today) = [(1, 0, false)] ∧
  summary (list_images three_images base 3 2 "recent" None today) = [].
Proof. by vm_compute. Qed.

(** The address of an image is the origin of the request, without its
    trailing slash, followed by the static path. *)
Example scenario_image_url :
  match list_images three_images base 1 1 "recent" None today with
  | Return [vm] => ImageOut.image_url vm
  | _ => ""%string
  end = "http://localhost:8000/images/03.png"%string.
Proof. by vm_compute. Qed.
End Scenarios.

(** * Further properties of the aggregation helpers *)

Section AggregationMore.
Implicit Types (db : DB) (ids : list Z).

Lemma count_likes_pos db k :
  0 < count_likes db k ↔ ∃ l, l ∈ likes db ∧ Like.image_id l = k.
Proof.
  unfold count_likes. split.
  - intros Hpos.
    destruct (filter (λ l, Like.image_id l = k) (likes db)) as [|l rest] eqn:Hf;
      [cbn in Hpos; lia|].
    exists l. assert (Hin : l ∈ filter (λ l, Like.image_id l = k) (likes db))
      by (rewrite Hf; left).
    apply list_elem_of_filter in Hin as [Hid Hin]. done.
  - intros (l & Hin & Hid).
    assert (Hf : l ∈ filter (λ l, Like.image_id l = k) (likes db))
      by (by apply list_elem_of_filter).
    destruct (filter (λ l, Like.image_id l = k) (likes db));
      [by apply elem_of_nil in Hf | cbn; lia].
Qed.

Lemma selected_keys_elem db ids k :
  k ∈ Like.image_id <$> filter (λ l, Like.image_id l ∈ ids) (likes db)
  ↔ k ∈ ids ∧ 0 < count_likes db k.
Proof.
  rewrite count_likes_pos, list_elem_of_fmap. split.
  - intros (l & -> & Hl). apply list_elem_of_filter in Hl as [Hids Hl]. eauto.
  - intros (Hids & l & Hl & <-). exists l. split; [done|].
    by apply list_elem_of_filter.
Qed.

(** X1: the mapping of [_get_total_likes_for_ids] has an entry for an id
    exactly when the id was asked for and the image has at least one Like
    row, and the entry is the number of Like rows of the image. *)
Theorem X1_total_likes_entries db ids k n :
  _get_total_likes_for_ids db ids !! k = Some n
  ↔ k ∈ ids ∧ 0 < n ∧ n = count_likes db k.
Proof.
  destruct (decide (k ∈ ids ∧ 0 < count_likes db k)) as [[Hids Hpos]|Hno].
  - pose proof (_get_total_likes_for_ids_get db ids k Hids) as Hget.
    unfold _get_total_likes_for_ids in *.
    destruct ids as [|i ids]; [by apply elem_of_nil in Hids|].
    set (keys := Like.image_id <$> filter (λ l, Like.image_id l ∈ i :: ids) (likes db))
      in *.
    assert (Hrow : dict_of_rows (group_by_count keys) !! k
                   = Some (Z.of_nat (length (filter (λ k', k' = k) keys)))).
    { apply dict_of_rows_acc_in.
      - rewrite group_by_count_keys. apply NoDup_remove_dups.
      - apply list_elem_of_fmap. exists k. split; [done|].
        by apply elem_of_remove_dups, selected_keys_elem. }
    rewrite Hrow in *. cbn in Hget. rewrite Hget.
    split; [intros [= <-]; done | intros (_ & _ & ->); done].
  - split; [|intros (Hids & Hpos & ->); tauto].
    intros Hsome. exfalso.
    unfold _get_total_likes_for_ids in Hsome.
    destruct ids as [|i ids]; [by rewrite lookup_empty in Hsome|].
    unfold dict_of_rows in Hsome. rewrite dict_of_rows_acc_notin in Hsome.
    + by rewrite lookup_empty in Hsome.
    + rewrite group_by_count_keys, elem_of_remove_dups. by rewrite selected_keys_elem.
Qed.

Lemma _get_liked_ids_by_user_elem db ids user_hash k :
  k ∈ _get_liked_ids_by_user db ids user_hash
  ↔ k ∈ ids ∧ user_hash ≠ ""%string ∧ like_rows db k user_hash ≠ [].
Proof.
  unfold _get_liked_ids_by_user, truthy.
  destruct (decide (ids = [])) as [->|Hids].
  { cbn. rewrite elem_of_empty, elem_of_nil. tauto. }
  rewrite (bool_decide_eq_false_2 (ids = [])) by done. cbn.
  case_bool_decide as Hu; cbn.
  { rewrite elem_of_empty. tauto. }
  rewrite elem_of_list_to_set, list_elem_of_fmap. split.
  - intros (l & -> & Hl). apply list_elem_of_filter in Hl as [[Hin Hhash] Hl].
    split; [done|]. split; [done|].
    intros Hnil.
    assert (Hrow : l ∈ like_rows db (Like.image_id l) user_hash)
      by (by apply list_elem_of_filter).
    rewrite Hnil in Hrow. by apply elem_of_nil in Hrow.
  - intros (Hin & _ & Hrows).
    destruct (like_rows db k user_hash) as [|l rest] eqn:Hf; [done|].
    assert (Hrow : l ∈ like_rows db k user_hash) by (rewrite Hf; left).
    apply list_elem_of_filter in Hrow as [[<- <-] Hl].
    exists l. split; [done|]. by apply list_elem_of_filter.
Qed.

(** X2: [_get_liked_ids_by_user] returns the ids that were asked for and
    for which the user has a Like row; it returns no id at all for a blank
    user hash or when no id was asked for. *)
Theorem X2_liked_ids_members db ids user_hash k :
  (k ∈ _get_liked_ids_by_user db ids user_hash
   ↔ k ∈ ids ∧ user_hash ≠ ""%string ∧ like_rows db k user_hash ≠ []) ∧
  _get_liked_ids_by_user db ids "" = ∅ ∧
  _get_liked_ids_by_user db [] user_hash = ∅.
Proof.
  split; [apply _get_liked_ids_by_user_elem|].
  split; [|done].
  unfold _get_liked_ids_by_user. by destruct (bool_decide (ids = [])).
Qed.
End AggregationMore.

(** * Further properties of the feed builder *)

Section FeedBuilderMore.
Implicit Types (db : DB) (sort base_url : string) (utcnow : datetime).

(** The set of liked ids [rendered_page] uses, for the ids of a page. *)
Lemma rendered_page_page_liked db base_url skip limit sort user_hash utcnow :
  rendered_page db base_url skip limit sort user_hash utcnow =
  image_out (rstrip "/" base_url)
    (_get_total_likes_for_ids db (Image.id <$> page_of db skip limit sort utcnow))
    match user_hash with
    | Some u =>
        if truthy u
        then _get_liked_ids_by_user db
               (Image.id <$> page_of db skip limit sort utcnow) u
        else ∅
    | None => ∅
    end
  <$> page_of db skip limit sort utcnow.
Proof. reflexivity. Qed.

Lemma page_of_sublist db skip limit sort utcnow :
  page_of db skip limit sort utcnow `sublist_of` ranking db sort utcnow.
Proof.
  unfold page_of, offset_limit.
  etrans; [apply sublist_take | apply sublist_drop].
Qed.

Lemma page_of_elem db skip limit sort utcnow img :
  img ∈ page_of db skip limit sort utcnow → img ∈ images db.
Proof.
  intros Hin. rewrite <- (ranking_perm db sort utcnow).
  eapply elem_of_sublist; [exact Hin | apply page_of_sublist].
Qed.

Lemma rendered_page_view_model db base_url skip limit sort user_hash utcnow vm :
  vm ∈ rendered_page db base_url skip limit sort user_hash utcnow →
  (∃ img, img ∈ images db ∧ view_of img vm) ∧
  ImageOut.likes_count vm = count_likes db (ImageOut.id vm) ∧
  (ImageOut.liked_by_user vm = true
   ↔ ∃ u, user_hash = Some u ∧ u ≠ ""%string
          ∧ like_rows db (ImageOut.id vm) u ≠ []) ∧
  ImageOut.image_url vm
    = (rstrip "/" base_url +:+ "/images/" +:+ ImageOut.stored_filename vm)%string.
Proof.
  rewrite rendered_page_page_liked.
  set (pg := page_of db _ _ sort utcnow).
  intros Hvm. apply list_elem_of_fmap in Hvm as (img & -> & Himg).
  assert (Hid : Image.id img ∈ Image.id <$> pg) by (by apply list_elem_of_fmap_2).
  split; [exists img; split; [by eapply page_of_elem | by unfold view_of]|].
  split; [by apply _get_total_likes_for_ids_get|].
  split; [|done]. cbn. rewrite bool_decide_eq_true.
  destruct user_hash as [u|].
  - unfold truthy. case_bool_decide as Hu; cbn.
    + rewrite elem_of_empty. split; [done|]. intros (u' & [= <-] & Hne & _). done.
    + rewrite _get_liked_ids_by_user_elem. split.
      * intros (_ & _ & Hrows). eauto.
      * intros (u' & [= <-] & _ & Hrows). done.
  - rewrite elem_of_empty. split; [done|]. intros (u' & [=] & _).
Qed.

(** X3: every view model of a listing that is returned (its offset being
    one the driver binds) shows an image of the store with
    the number of its Like rows; it is marked as liked exactly when the
    request names a non-blank user hash that has a Like row for the image;
    and its address is the origin of the request without trailing slashes,
    followed by [/images/] and the stored file name. *)
Theorem X3_listing_view_models db base_url page limit sort user_hash utcnow :
  int64 (offset_of page limit) →
  ∃ res,
    list_images db base_url page limit sort user_hash utcnow = Return res ∧
    ∀ vm, vm ∈ res →
      (∃ img, img ∈ images db ∧ view_of img vm) ∧
      ImageOut.likes_count vm = count_likes db (ImageOut.id vm) ∧
      (ImageOut.liked_by_user vm = true
       ↔ ∃ u, user_hash = Some u ∧ u ≠ ""%string
              ∧ like_rows db (ImageOut.id vm) u ≠ []) ∧
      ImageOut.image_url vm
        = (rstrip "/" base_url +:+ "/images/" +:+ ImageOut.stored_filename vm)%string.
Proof.
  intros Hin. eexists. split; [by apply list_images_unfold|].
  intros vm Hvm. by apply rendered_page_view_model in Hvm.
Qed.

Lemma X3_listing_view_models_witness :
  ∃ res,
    list_images gallery_liked "http://localhost:8000/" 1 20 "popular"
      (Some "u1"%string) today = Return res ∧
    ∀ vm, vm ∈ res →
      (∃ img, img ∈ images gallery_liked ∧ view_of img vm) ∧
      ImageOut.likes_count vm = count_likes gallery_liked (ImageOut.id vm) ∧
      (ImageOut.liked_by_user vm = true
       ↔ ∃ u, Some "u1"%string = Some u ∧ u ≠ ""%string
              ∧ like_rows gallery_liked (ImageOut.id vm) u ≠ []) ∧
      ImageOut.image_url vm
        = ("http://localhost:8000" +:+ "/images/" +:+ ImageOut.stored_filename vm)%string.
Proof.
  apply (X3_listing_view_models gallery_liked "http://localhost:8000/" 1 20 "popular"
           (Some "u1"%string) today).
  vm_compute. split; [discriminate | reflexivity].
Defined.

(** X4: a page whose offset the driver binds holds as many rows as the
    clamped limit allows and the ranking has left after the offset; it is
    empty exactly when the offset reaches the number of images of the
    store. *)
Theorem X4_page_size db base_url page limit sort user_hash utcnow :
  int64 (offset_of page limit) →
  ∃ res,
    list_images db base_url page limit sort user_hash utcnow = Return res ∧
    length res =
      Nat.min (Z.to_nat (clamp_limit limit))
        (length (images db) - Z.to_nat ((clamp_page page - 1) * clamp_limit limit))%nat ∧
    (res = [] ↔
     (length (images db) ≤ Z.to_nat ((clamp_page page - 1) * clamp_limit limit))%nat).
Proof.
  intros Hin. eexists. split; [by apply list_images_unfold|].
  pose proof (clamp_limit_range limit) as Hl.
  rewrite rendered_page_page_liked.
  set (skip := (clamp_page page - 1) * clamp_limit limit).
  assert (Hlen : length (page_of db skip (clamp_limit limit) sort utcnow)
                 = Nat.min (Z.to_nat (clamp_limit limit))
                     (length (images db) - Z.to_nat skip)%nat).
  { unfold page_of, offset_limit.
    by rewrite length_take, length_drop, (ranking_perm db sort utcnow). }
  split; [by rewrite length_fmap|].
  destruct (page_of db skip (clamp_limit limit) sort utcnow) as [|img rest];
    cbn in Hlen |- *; (split; [intros Hres | intros Hle]); try done; lia.
Qed.
Lemma X4_page_size_witness :
  ∃ res,
    list_images three_images "http://localhost:8000/" 2 2 "recent" None today
      = Return res ∧
    length res =
      Nat.min (Z.to_nat (clamp_limit 2))
        (length (images three_images) - Z.to_nat ((clamp_page 2 - 1) * clamp_limit 2))%nat ∧
    (res = [] ↔
     (length (images three_images) ≤ Z.to_nat ((clamp_page 2 - 1) * clamp_limit 2))%nat).
Proof.
  apply (X4_page_size three_images "http://localhost:8000/" 2 2 "recent" None today).
  vm_compute. split; [discriminate | reflexivity].
Defined.

Lemma StronglySorted_fmap_on {A B} (R1 : relation A) (R2 : relation B)
    (f : A → B) (l : list A) :
  (∀ x y, x ∈ l → y ∈ l → R1 x y → R2 (f x) (f y)) →
  StronglySorted R1 l → StronglySorted R2 (f <$> l).
Proof.
  intros Hf Hsorted. induction Hsorted as [|x l Hs IH Hall]; [constructor|].
  cbn. constructor.
  - apply IH. intros a b Ha Hb. apply Hf; by right.
  - apply Forall_forall. intros b Hb.
    apply list_elem_of_fmap in Hb as (y & -> & Hy).
    rewrite Forall_forall in Hall.
    apply Hf; [left | by right | by apply Hall].
Qed.

Lemma StronglySorted_offset_limit {A} (R : relation A) (skip limit : Z) (l : list A) :
  StronglySorted R l → StronglySorted R (offset_limit skip limit l).
Proof.
  intros Hsorted. unfold offset_limit.
  rewrite <- (take_drop (Z.to_nat skip) l) in Hsorted.
  apply StronglySorted_app_1_r in Hsorted.
  rewrite <- (take_drop (Z.to_nat limit) (drop (Z.to_nat skip) l)) in Hsorted.
  by apply StronglySorted_app_1_l in Hsorted.
Qed.

(** X5: when the offset is one the driver binds, the rows of a "recent"
    listing come with non-increasing [created_at], and the rows of a
    "popular" listing with non-increasing [likes_count]. *)
Theorem X5_listing_order db base_url page limit user_hash utcnow :
  int64 (offset_of page limit) →
  ∃ recent popular,
    list_images db base_url page limit "recent" user_hash utcnow = Return recent ∧
    StronglySorted (λ a b, ImageOut.created_at b ≤ ImageOut.created_at a) recent ∧
    list_images db base_url page limit "popular" user_hash utcnow = Return popular ∧
    StronglySorted (λ a b, ImageOut.likes_count b ≤ ImageOut.likes_count a) popular.
Proof.
  intros Hin. eexists _, _.
  split; [by apply list_images_unfold|]. split.
  { rewrite rendered_page_page_liked.
    apply (StronglySorted_fmap_on (desc_by Image.created_at)); [by intros|].
    apply StronglySorted_offset_limit, ranking_recent_sorted.
    rewrite !not_elem_of_cons. repeat split; [done | done | apply not_elem_of_nil]. }
  split; [by apply list_images_unfold|].
  rewrite rendered_page_page_liked.
  set (pg := page_of db _ _ "popular" utcnow).
  apply (StronglySorted_fmap_on (desc_by (likes_total db))).
  - intros a b Ha Hb Hab. cbn.
    rewrite !_get_total_likes_for_ids_get by (by apply list_elem_of_fmap_2).
    exact Hab.
  - apply StronglySorted_offset_limit, ranking_popular_sorted.
Qed.

Lemma X5_listing_order_witness :
  ∃ recent popular,
    list_images gallery_liked_late "http://localhost:8000/" 1 20 "recent" None today
      = Return recent ∧
    StronglySorted (λ a b, ImageOut.created_at b ≤ ImageOut.created_at a) recent ∧
    list_images gallery_liked_late "http://localhost:8000/" 1 20 "popular" None today
      = Return popular ∧
    StronglySorted (λ a b, ImageOut.likes_count b ≤ ImageOut.likes_count a) popular.
Proof.
  apply (X5_listing_order gallery_liked_late "http://localhost:8000/" 1 20 None today).
  vm_compute. split; [discriminate | reflexivity].
Defined.

(** X6: on a store whose image ids are distinct, no page of a listing
    whose offset the driver binds shows an image twice. *)
Theorem X6_page_without_repeats db base_url page limit sort user_hash utcnow :
  NoDup (Image.id <$> images db) →
  int64 (offset_of page limit) →
  ∃ res,
    list_images db base_url page limit sort user_hash utcnow = Return res ∧
    NoDup (ImageOut.id <$> res).
Proof.
  intros Hkeys Hin. eexists. split; [by apply list_images_unfold|].
  rewrite rendered_page_ids.
  apply (sublist_NoDup _ (Image.id <$> ranking db sort utcnow)).
  - by rewrite (ranking_perm db sort utcnow).
  - apply fmap_sublist, page_of_sublist.
Qed.

Lemma X6_page_without_repeats_witness :
  ∃ res,
    list_images gallery_liked "http://localhost:8000/" 1 20 "popular" None today
      = Return res ∧
    NoDup (ImageOut.id <$> res).
Proof.
  apply (X6_page_without_repeats gallery_liked "http://localhost:8000/" 1 20 "popular"
           None today).
  - apply (bool_decide_unpack _). vm_compute. exact I.
  - vm_compute. split; [discriminate | reflexivity].
Defined.



End FeedBuilderMore.

(** * Further properties of the like toggle *)

Section LikeToggleMore.
Implicit Types (db : DB) (action : LikeAction.t) (utcnow : datetime).

Lemma valid_payload_dec action : valid_payload action ∨ ¬ valid_payload action.
Proof.
  unfold valid_payload.
  destruct (decide (LikeAction.user_hash action = ""%string));
    destruct (decide (LikeAction.action action = "like"%string));
    destruct (decide (LikeAction.action action = "unlike"%string)); tauto.
Qed.

Lemma image_exists_dec db image_id :
  image_exists db image_id ∨ ¬ image_exists db image_id.
Proof.
  destruct (get_image db image_id) as [img|] eqn:Hg.
  - left. exists img. unfold get_image in Hg.
    apply head_Some_elem_of, list_elem_of_filter in Hg as [Hid Hin]. done.
  - right. by apply get_image_None.
Qed.

(** The ways a call can end: three refusals that leave the store alone,
    a like and an unlike. *)
Lemma like_image_cases db image_id action utcnow :
  ((¬ valid_payload action ∧
    like_image db image_id action utcnow = (db, Raise InvalidInput))
   ∨ (valid_payload action ∧ ¬ image_exists db image_id ∧
      like_image db image_id action utcnow = (db, Raise NotFound))
   ∨ (valid_payload action ∧ ¬ int64 image_id ∧
      like_image db image_id action utcnow = (db, Raise OverflowError)))
  ∨ (image_exists db image_id ∧ LikeAction.user_hash action ≠ ""%string ∧
     LikeAction.action action = "like"%string ∧
     like_image db image_id action utcnow =
       (liked db image_id (LikeAction.user_hash action) utcnow,
        Return (mkLikeOut image_id
                  (count_likes (liked db image_id (LikeAction.user_hash action) utcnow)
                     image_id) true)))
  ∨ (image_exists db image_id ∧ LikeAction.user_hash action ≠ ""%string ∧
     LikeAction.action action = "unlike"%string ∧
     like_image db image_id action utcnow =
       (delete_likes db image_id (LikeAction.user_hash action),
        Return (mkLikeOut image_id
                  (count_likes (delete_likes db image_id (LikeAction.user_hash action))
                     image_id) false))).
Proof.
  destruct (valid_payload_dec action) as [Hok|Hbad];
    [|left; left; split; [done | by apply like_image_invalid]].
  destruct (decide (int64 image_id)) as [Hid|Hid];
    [|left; right; right; split; [done|]; split;
      [done | by apply like_image_overflow]].
  destruct (image_exists_dec db image_id) as [Hex|Hno];
    [|left; right; left; split; [done|]; split;
      [done | by apply like_image_not_found]].
  destruct action as [u a]. destruct Hok as [Hu [Ha|Ha]]; cbn in *; subst a.
  - right. left. split; [done|]. split; [done|]. split; [done|].
    by apply like_image_like.
  - right. right. split; [done|]. split; [done|]. split; [done|].
    by apply like_image_unlike.
Qed.

Lemma delete_likes_rows_other db image_id user_hash i u :
  (i, u) ≠ (image_id, user_hash) →
  like_rows (delete_likes db image_id user_hash) i u = like_rows db i u.
Proof.
  intros Hne. unfold like_rows, delete_likes. cbn.
  rewrite list_filter_filter. apply list_filter_iff.
  intros l. split; [tauto|]. intros [Hi Hu]. split; [done|].
  intros [Hi' Hu']. apply Hne. congruence.
Qed.

Lemma liked_count_other db image_id user_hash utcnow i :
  i ≠ image_id →
  count_likes (liked db image_id user_hash utcnow) i = count_likes db i.
Proof.
  intros Hne. unfold liked, commit_like, count_likes.
  destruct (like_rows db image_id user_hash); [|done].
  cbn. rewrite filter_app, filter_cons_False, filter_nil by (cbn; congruence).
  by rewrite app_nil_r.
Qed.

Lemma delete_likes_count_other db image_id user_hash i :
  i ≠ image_id →
  count_likes (delete_likes db image_id user_hash) i = count_likes db i.
Proof.
  intros Hne. unfold delete_likes, count_likes. cbn. do 2 f_equal.
  rewrite list_filter_filter. apply list_filter_iff.
  intros l. split; [tauto|]. intros Hi. split; [done|]. intros [Hi' _]. congruence.
Qed.

(** X8: a call of the like toggle never changes the table of images, the
    Like rows of any other (image, user) pair, or the like count of any
    other image. *)
Theorem X8_like_image_frame db image_id action utcnow :
  images (like_image db image_id action utcnow).1 = images db ∧
  (∀ i u, (i, u) ≠ (image_id, LikeAction.user_hash action) →
     like_rows (like_image db image_id action utcnow).1 i u = like_rows db i u) ∧
  (∀ i, i ≠ image_id →
     count_likes (like_image db image_id action utcnow).1 i = count_likes db i).
Proof.
  destruct (like_image_cases db image_id action utcnow)
    as [[[_ ->]|[(_ & _ & ->)|(_ & _ & ->)]]|[(_ & _ & _ & ->)|(_ & _ & _ & ->)]];
    cbn.
  - done.
  - done.
  - done.
  - split; [apply liked_images|].
    split; [intros i u Hne; by apply liked_rows_other|].
    intros i Hne. by apply liked_count_other.
  - split; [done|].
    split; [intros i u Hne; by apply delete_likes_rows_other|].
    intros i Hne. by apply delete_likes_count_other.
Qed.





Lemma liked_exists db image_id user_hash utcnow i :
  image_exists db i → image_exists (liked db image_id user_hash utcnow) i.
Proof. unfold image_exists. by rewrite liked_images. Qed.








End LikeToggleMore.

(** * Integrity of reachable stores *)

Section Integrity.
Context `{Pathlib}.
Implicit Types (db : DB) (files : FileStore) (base_url hex : string).

Lemma next_id_above (ids : list Z) x : x ∈ ids → x < next_id ids.
Proof.
  unfold next_id. induction ids as [|y ids IH]; intros Hx.
  - by apply elem_of_nil in Hx.
  - cbn. apply elem_of_cons in Hx as [->|Hx]; [lia|]. specialize (IH Hx). lia.
Qed.

Lemma next_id_fresh (ids : list Z) : next_id ids ∉ ids.
Proof. intros Hin. apply next_id_above in Hin. lia. Qed.

Lemma NoDup_snoc_fresh {A} (l : list A) (x : A) : NoDup l → x ∉ l → NoDup (l ++ [x]).
Proof.
  intros Hl Hx. apply NoDup_app. split; [done|]. split; [|apply NoDup_singleton].
  intros y Hy Hyx. apply list_elem_of_singleton in Hyx as ->. done.
Qed.

(** The three ways the route can answer. *)
Lemma POST_image_cases db files base_url authorName imageName image hex utcnow :
  (image = None ∧
   POST_image db files base_url authorName imageName image hex utcnow
     = (db, files, Raise RequestValidationError))
  ∨ (∃ f, image = Some f ∧
       stored_name hex f ∈ Image.stored_filename <$> images db ∧
       POST_image db files base_url authorName imageName image hex utcnow
         = (db, <[stored_name hex f := contents f]> files, Raise IntegrityError))
  ∨ (∃ f vm, image = Some f ∧
       (stored_name hex f ∉ Image.stored_filename <$> images db) ∧
       (POST_image db files base_url authorName imageName image hex utcnow
         = (mkDB (images db ++ [new_image db authorName imageName f hex utcnow])
              (likes db),
            <[stored_name hex f := contents f]> files,
            Return vm)) ∧
       view_of (new_image db authorName imageName f hex utcnow) vm ∧
       ImageOut.likes_count vm = 0 ∧
       ImageOut.liked_by_user vm = false ∧
       ImageOut.image_url vm
         = (rstrip "/" base_url +:+ "/images/" +:+ stored_name hex f)%string).
Proof.
  destruct image as [f|]; [|by left].
  right. unfold POST_image, upload_image, _create_image_record.
  fold (stored_name hex f).
  case_bool_decide as Hname.
  - left. by exists f.
  - right. eexists f, _. split; [done|]. split; [done|].
    split; [reflexivity|]. by unfold view_of.
Qed.
(** The four ways a request can change the record store. *)
Lemma step_cases db db' :
  step db db' →
  db' = db
  ∨ (∃ img, db' = mkDB (images db ++ [img]) (likes db) ∧
       Image.id img = next_id (Image.id <$> images db) ∧
       (Image.stored_filename img ∉ Image.stored_filename <$> images db))
  ∨ (∃ i u t, image_exists db i ∧ u ≠ ""%string ∧ db' = liked db i u t)
  ∨ (∃ i u, db' = delete_likes db i u).
Proof.
  intros Hstep. destruct Hstep as [db files base a n image hex t|db|db i action t].
  - destruct (POST_image_cases db files base a n image hex t)
      as [[_ ->]|[(f & _ & _ & ->)|(f & vm & _ & Hfresh & -> & _)]]; cbn.
    + by left.
    + by left.
    + right. left. by eexists.
  - by left.
  - destruct (like_image_cases db i action t)
      as [[[_ ->]|[(_ & _ & ->)|(_ & _ & ->)]]
         |[(Hex & Hu & _ & ->)|(_ & _ & _ & ->)]]; cbn.
    + by left.
    + by left.
    + by left.
    + right. right. left. by eexists _, _, _.
    + right. right. right. by eexists _, _.
Qed.

Lemma liked_likes db i u t :
  likes (liked db i u t) = likes db
  ∨ likes (liked db i u t) = likes db ++ [Like.mk (next_id (Like.id <$> likes db)) i u t].
Proof.
  unfold liked, commit_like. destruct (like_rows db i u); [by right | by left].
Qed.

Lemma step_primary_keys db db' : primary_keys db → step db db' → primary_keys db'.
Proof.
  intros (Himg & Hlike & Hname) Hstep.
  destruct (step_cases db db' Hstep)
    as [->|[(img & -> & Hid & Hfresh)|[(i & u & t & _ & _ & ->)|(i & u & ->)]]].
  - done.
  - unfold primary_keys. cbn. rewrite !fmap_app. cbn.
    split; [|split; [done|]].
    + apply NoDup_snoc_fresh; [done|]. rewrite Hid. apply next_id_fresh.
    + by apply NoDup_snoc_fresh.
  - unfold primary_keys. rewrite liked_images.
    split; [done|]. split; [|done].
    destruct (liked_likes db i u t) as [->| ->]; [done|].
    rewrite fmap_app. cbn. apply NoDup_snoc_fresh; [done | apply next_id_fresh].
  - unfold primary_keys. cbn. split; [done|]. split; [|done].
    apply (sublist_NoDup _ (Like.id <$> likes db)); [done|].
    apply fmap_sublist, sublist_filter.
Qed.

(** X14: on every store reachable from the empty one, image ids, like ids
    and stored file names are pairwise distinct, and the look-up of an
    image by id returns the one image that has the id. *)
Theorem X14_reachable_primary_keys db :
  reachable db →
  primary_keys db ∧
  (∀ img, img ∈ images db → get_image db (Image.id img) = Some img).
Proof.
  intros Hreach.
  assert (Hkeys : primary_keys db).
  { revert db Hreach. apply (rtc_ind_r (R:=step) primary_keys empty_db).
    - unfold primary_keys. cbn. repeat split; apply NoDup_nil_2.
    - intros y z _ Hstep Hy. by apply (step_primary_keys y z). }
  split; [done|]. destruct Hkeys as (Hids & _ & _).
  intros img Himg. unfold get_image.
  induction (images db) as [|x imgs IH]; [by apply elem_of_nil in Himg|].
  cbn in Hids. apply NoDup_cons in Hids as [Hx Hids].
  apply elem_of_cons in Himg as [->|Himg].
  - by rewrite filter_cons_True.
  - rewrite filter_cons_False; [by apply IH|].
    intros Heq. apply Hx. rewrite Heq. by apply list_elem_of_fmap_2.
Qed.

Lemma step_likes_sound db db' : likes_sound db → step db db' → likes_sound db'.
Proof.
  intros Hsound Hstep.
  destruct (step_cases db db' Hstep)
    as [->|[(img & -> & _ & _)|[(i & u & t & Hex & Hu & ->)|(i & u & ->)]]].
  - done.
  - intros l Hl. cbn in Hl. destruct (Hsound l Hl) as [(x & Hx & Hid) Hne].
    split; [|done]. exists x. cbn. split; [|done].
    apply elem_of_app. by left.
  - intros l Hl.
    destruct (liked_likes db i u t) as [Heq|Heq]; rewrite Heq in Hl.
    + destruct (Hsound l Hl) as [Hx Hne]. split; [by apply liked_exists | done].
    + apply elem_of_app in Hl as [Hl|Hl].
      * destruct (Hsound l Hl) as [Hx Hne]. split; [by apply liked_exists | done].
      * apply list_elem_of_singleton in Hl as ->. cbn.
        split; [by apply liked_exists | done].
  - intros l Hl. cbn in Hl. apply list_elem_of_filter in Hl as [_ Hl].
    destruct (Hsound l Hl) as [Hx Hne]. done.
Qed.

(** X15: on every store reachable from the empty one, each Like row
    refers to an image that exists and carries a non-blank user hash. *)
Theorem X15_reachable_foreign_keys db :
  reachable db →
  foreign_keys db ∧ (∀ l, l ∈ likes db → Like.user_hash l ≠ ""%string).
Proof.
  intros Hreach.
  assert (Hsound : likes_sound db).
  { revert db Hreach. apply (rtc_ind_r (R:=step) likes_sound empty_db).
    - intros l Hl. by apply elem_of_nil in Hl.
    - intros y z _ Hstep Hy. by apply (step_likes_sound y z). }
  split; intros l Hl; by destruct (Hsound l Hl).
Qed.
End Integrity.

Lemma X14_reachable_primary_keys_witness :
  primary_keys uploaded_liked ∧
  (∀ img, img ∈ images uploaded_liked →
     get_image uploaded_liked (Image.id img) = Some img).
Proof.
  apply (@X14_reachable_primary_keys flat_names uploaded_liked).
  unfold reachable, uploaded_liked, uploaded.
  eapply rtc_l; [apply step_upload|].
  eapply rtc_l; [apply step_like|].
  apply rtc_refl.
Defined.

Lemma X15_reachable_foreign_keys_witness :
  foreign_keys uploaded_liked ∧
  (∀ l, l ∈ likes uploaded_liked → Like.user_hash l ≠ ""%string).
Proof.
  apply (@X15_reachable_foreign_keys flat_names uploaded_liked).
  unfold reachable, uploaded_liked, uploaded.
  eapply rtc_l; [apply step_upload|].
  eapply rtc_l; [apply step_like|].
  apply rtc_refl.
Defined.

(** * Further properties of the upload route *)

Section UploadMore.
Context `{Pathlib}.
Implicit Types (db : DB) (files : FileStore) (base_url hex : string).

(** X16: when the generated name is already the stored name of an image,
    the upload fails with the store's IntegrityError (status 500) and adds
    no row, but the file of that name has already been overwritten with the
    new contents. *)
Theorem X16_upload_name_collision db files base_url authorName imageName f hex utcnow :
  stored_name hex f ∈ Image.stored_filename <$> images db →
  POST_image db files base_url authorName imageName (Some f) hex utcnow
    = (db, <[stored_name hex f := contents f]> files, Raise IntegrityError) ∧
  status (POST_image db files base_url authorName imageName (Some f) hex utcnow).2 = 500 ∧
  (POST_image db files base_url authorName imageName (Some f) hex utcnow).1.2
    !! stored_name hex f = Some (contents f).
Proof.
  intros Htaken.
  destruct (POST_image_cases db files base_url authorName imageName (Some f) hex utcnow)
    as [[[=] _]|[(f' & [= <-] & _ & ->)|(f' & vm & [= <-] & Hfresh & _)]]; [|done].
  cbn. split; [done|]. split; [done|]. apply lookup_insert_eq.
Qed.

(** X17: a stored upload adds one row and leaves the others and all Like
    rows as they were; the new row is found under the returned id, the
    uploaded bytes are stored under the returned file name, the returned
    size is their number, and every image that existed is still found as
    before. *)
Theorem X17_upload_then_lookup db files base_url authorName imageName f hex utcnow :
  (stored_name hex f ∉ Image.stored_filename <$> images db) →
  ∃ img vm files',
    POST_image db files base_url authorName imageName (Some f) hex utcnow
      = (mkDB (images db ++ [img]) (likes db), files', Return vm) ∧
    view_of img vm ∧
    get_image (mkDB (images db ++ [img]) (likes db)) (ImageOut.id vm) = Some img ∧
    files' !! ImageOut.stored_filename vm = Some (contents f) ∧
    ImageOut.size vm = Some (Z.of_nat (length (contents f))) ∧
    ImageOut.created_at vm = utcnow ∧
    (∀ i, image_exists db i →
       get_image (mkDB (images db ++ [img]) (likes db)) i = get_image db i).
Proof.
  intros Hfresh.
  destruct (POST_image_cases db files base_url authorName imageName (Some f) hex utcnow)
    as [[[=] _]|[(f' & [= <-] & Htaken & _)|(f' & vm & [= <-] & _ & -> & Hview & _)]];
    [done|].
  eexists _, vm, _. split; [reflexivity|]. split; [done|].
  destruct Hview as (Hid & _ & _ & _ & Hname & _ & Hsize & Hat).
  assert (Hnone : filter (λ x, Image.id x = next_id (Image.id <$> images db)) (images db)
                  = []).
  { apply elem_of_nil_inv. intros x Hx. apply list_elem_of_filter in Hx as [Hx Hin].
    apply (next_id_fresh (Image.id <$> images db)). rewrite <- Hx.
    by apply list_elem_of_fmap_2. }
  split.
  { unfold get_image. cbn. rewrite Hid. cbn.
    rewrite filter_app, Hnone. by rewrite filter_cons_True. }
  split; [rewrite Hname; apply lookup_insert_eq|].
  split; [done|]. split; [done|].
  intros i (x & Hx & Hxi). unfold get_image. cbn. rewrite filter_app.
  assert (Hin : x ∈ filter (λ img, Image.id img = i) (images db))
    by (by apply list_elem_of_filter).
  destruct (filter (λ img, Image.id img = i) (images db));
    [by apply elem_of_nil in Hin | done].
Qed.
Lemma order_by_desc_head_max {A} (key : A → Z) (l : list A) (x : A) :
  (∀ y, y ∈ l → key y < key x) →
  ∃ tl, order_by_desc key (l ++ [x]) = x :: tl.
Proof.
  intros Hmax.
  pose proof (order_by_desc_perm key (l ++ [x])) as Hperm.
  pose proof (order_by_desc_sorted key (l ++ [x])) as Hsorted.
  destruct (order_by_desc key (l ++ [x])) as [|h tl].
  - apply Permutation_length in Hperm. rewrite List.length_app in Hperm.
    cbn in Hperm. lia.
  - exists tl. f_equal.
    assert (Hx : x ∈ h :: tl) by (rewrite Hperm; apply elem_of_app; right; left).
    assert (Hh : h ∈ l ++ [x]) by (rewrite <- Hperm; left).
    apply elem_of_app in Hh as [Hh|Hh]; [|by apply list_elem_of_singleton in Hh].
    apply elem_of_cons in Hx as [->|Hx]; [done|].
    apply StronglySorted_inv in Hsorted as [_ Hall].
    rewrite Forall_forall in Hall. specialize (Hall x Hx). specialize (Hmax h Hh).
    unfold desc_by in Hall. lia.
Qed.

Lemma no_likes_for_next_id db :
  foreign_keys db →
  filter (λ l, Like.image_id l = next_id (Image.id <$> images db)) (likes db) = [].
Proof.
  intros Hfk. apply elem_of_nil_inv. intros l Hl.
  apply list_elem_of_filter in Hl as [Hid Hl].
  destruct (Hfk l Hl) as (img & Himg & Heq).
  apply (next_id_fresh (Image.id <$> images db)).
  rewrite <- Hid, <- Heq. by apply list_elem_of_fmap_2.
Qed.

(** X18: after a stored upload whose timestamp is later than that of every
    image of the store, the first page of the "recent" listing, asked for
    at the same origin, starts with exactly the view model the upload
    returned; the hard-coded zero likes of that answer are the true count
    on a store whose Like rows all refer to existing images. *)
Theorem X18_upload_heads_recent db files base_url authorName imageName f hex utcnow
    limit user_hash utcnow' :
  (stored_name hex f ∉ Image.stored_filename <$> images db) →
  foreign_keys db →
  (∀ img, img ∈ images db → Image.created_at img < utcnow) →
  ∃ db' files' vm rest,
    POST_image db files base_url authorName imageName (Some f) hex utcnow
      = (db', files', Return vm) ∧
    list_images db' base_url 1 limit "recent" user_hash utcnow' = Return (vm :: rest) ∧
    count_likes db' (ImageOut.id vm) = 0.
Proof.
  intros Hfresh Hfk Hnewest.
  destruct (POST_image_cases db files base_url authorName imageName (Some f) hex utcnow)
    as [[[=] _]|[(f' & [= <-] & Htaken & _)
                |(f' & vm & [= <-] & _ & -> & Hview & Hcount & Hliked & Hurl)]];
    [done|].
  set (img := new_image db authorName imageName f hex utcnow) in *.
  set (db' := mkDB (images db ++ [img]) (likes db)).
  assert (Hzero : count_likes db' (Image.id img) = 0).
  { unfold count_likes. cbn. by rewrite no_likes_for_next_id. }
  destruct (order_by_desc_head_max Image.created_at (images db) img) as [tl Hhead];
    [exact Hnewest|].
  pose proof (clamp_limit_range limit) as Hl.
  destruct (Z.to_nat (clamp_limit limit)) as [|n] eqn:Hn; [lia|].
  assert (Hpage : page_of db' ((clamp_page 1 - 1) * clamp_limit limit)
                    (clamp_limit limit) "recent" utcnow' = img :: take n tl).
  { unfold page_of, offset_limit, ranking. cbn [images db'].
    rewrite !bool_decide_eq_false_2 by done. rewrite Hhead, Hn. done. }
  eexists db', _, vm, _. split; [reflexivity|].
  destruct Hview as (Hid & Ha & Hn' & Ho & Hs & Hc & Hsz & Hat).
  split; [|by rewrite Hid].
  assert (Hfirst : int64 (offset_of 1 limit)).
  { unfold int64, offset_of, clamp_page. rewrite decide_False by lia. lia. }
  rewrite list_images_unfold, rendered_page_page_liked, Hpage by done.
  set (ids := Image.id <$> img :: take n tl).
  assert (Hids : Image.id img ∈ ids) by left.
  assert (Hc0 : default 0 (_get_total_likes_for_ids db' ids !! Image.id img) = 0)
    by (by rewrite _get_total_likes_for_ids_get).
  assert (Hrows0 : ∀ u, like_rows db' (Image.id img) u = []).
  { intros u. apply elem_of_nil_inv. intros l Hlk.
    apply list_elem_of_filter in Hlk as [[Hlid _] Hlk].
    pose proof (no_likes_for_next_id db Hfk) as Hnone.
    assert (Hbad : l ∈ filter (λ l, Like.image_id l = next_id (Image.id <$> images db))
                         (likes db)) by (by apply list_elem_of_filter).
    rewrite Hnone in Hbad. by apply elem_of_nil in Hbad. }
  assert (Hl0 : bool_decide
                  (Image.id img ∈
                   match user_hash with
                   | Some u => if truthy u then _get_liked_ids_by_user db' ids u else ∅
                   | None => ∅
                   end) = false).
  { apply bool_decide_eq_false_2. intros Hin.
    destruct user_hash as [u|]; [|by apply elem_of_empty in Hin].
    destruct (truthy u); [|by apply elem_of_empty in Hin].
    apply _get_liked_ids_by_user_elem in Hin as (_ & _ & Hrows).
    by apply Hrows. }
  rewrite fmap_cons. do 2 f_equal.
  unfold image_out. rewrite Hc0, Hl0.
  destruct vm as [vid va vn vo vs vc vsz vat vcount vliked vurl].
  cbn in Hid, Ha, Hn', Ho, Hs, Hc, Hsz, Hat, Hcount, Hliked, Hurl.
  subst vid va vn vo vs vc vsz vat vcount vliked vurl. reflexivity.
Qed.

Lemma world_step_files_present w w' :
  files_present w → world_step w w' → files_present w'.
Proof.
  intros Hpresent Hstep.
  destruct Hstep as [db files base a n image hex t|db files|db files i action t].
  - destruct (POST_image_cases db files base a n image hex t)
      as [[_ ->]|[(f & _ & _ & ->)|(f & vm & _ & _ & -> & _)]]; cbn.
    + done.
    + intros img Himg. cbn in *. apply lookup_insert_is_Some'. right.
      by apply (Hpresent img).
    + intros img Himg. cbn in *. apply lookup_insert_is_Some'.
      apply elem_of_app in Himg as [Himg|Himg]; [right; by apply (Hpresent img)|].
      apply list_elem_of_singleton in Himg as ->. by left.
  - done.
  - intros img Himg. cbn in *.
    pose proof (X := like_image_cases db i action t).
    assert (Himgs : images (like_image db i action t).1 = images db).
    { destruct X as [[[_ ->]|[(_ & _ & ->)|(_ & _ & ->)]]
                    |[(_ & _ & _ & ->)|(_ & _ & _ & ->)]];
        [done | done | done | apply liked_images | done]. }
    rewrite Himgs in Himg. by apply (Hpresent img).
Qed.

(** X19: in every state reachable from the empty store and the empty
    directory, each image row has a file stored under its stored name. *)
Theorem X19_reachable_files_present w :
  reachable_world w →
  ∀ img, img ∈ images w.1 → is_Some (w.2 !! Image.stored_filename img).
Proof.
  intros Hreach. change (files_present w). revert w Hreach.
  apply (rtc_ind_r (R:=world_step) files_present (empty_db, ∅)).
  - intros img Himg. by apply elem_of_nil in Himg.
  - intros y z _ Hstep Hy. by apply (world_step_files_present y z).
Qed.
End UploadMore.

Lemma X16_upload_name_collision_witness :
  @POST_image flat_names uploaded ∅ "http://localhost:8000/" None None
    (Some png_upload) "5f0c" (2 * day)
    = (uploaded, <[@stored_name flat_names "5f0c" png_upload := contents png_upload]> ∅,
       Raise IntegrityError) ∧
  status (@POST_image flat_names uploaded ∅ "http://localhost:8000/" None None
            (Some png_upload) "5f0c" (2 * day)).2 = 500 ∧
  (@POST_image flat_names uploaded ∅ "http://localhost:8000/" None None
     (Some png_upload) "5f0c" (2 * day)).1.2
    !! @stored_name flat_names "5f0c" png_upload = Some (contents png_upload).
Proof.
  apply (@X16_upload_name_collision flat_names uploaded ∅ "http://localhost:8000/"
           None None png_upload "5f0c" (2 * day)).
  vm_compute. left.
Defined.

Lemma X17_upload_then_lookup_witness :
  ∃ img vm files',
    @POST_image flat_names gallery ∅ "http://localhost:8000/" None None
      (Some png_upload) "5f0c" (3 * day)
      = (mkDB (images gallery ++ [img]) (likes gallery), files', Return vm) ∧
    view_of img vm ∧
    get_image (mkDB (images gallery ++ [img]) (likes gallery)) (ImageOut.id vm)
      = Some img ∧
    files' !! ImageOut.stored_filename vm = Some (contents png_upload) ∧
    ImageOut.size vm = Some (Z.of_nat (length (contents png_upload))) ∧
    ImageOut.created_at vm = 3 * day ∧
    (∀ i, image_exists gallery i →
       get_image (mkDB (images gallery ++ [img]) (likes gallery)) i
       = get_image gallery i).
Proof.
  apply (@X17_upload_then_lookup flat_names gallery ∅ "http://localhost:8000/"
           None None png_upload "5f0c" (3 * day)).
  apply (bool_decide_unpack _). vm_compute. exact I.
Defined.

Lemma X18_upload_heads_recent_witness :
  ∃ db' files' vm rest,
    @POST_image flat_names gallery ∅ "http://localhost:8000/" None None
      (Some png_upload) "5f0c" (3 * day)
      = (db', files', Return vm) ∧
    list_images db' "http://localhost:8000/" 1 2 "recent" None today
      = Return (vm :: rest) ∧
    count_likes db' (ImageOut.id vm) = 0.
Proof.
  apply (@X18_upload_heads_recent flat_names gallery ∅ "http://localhost:8000/"
           None None png_upload "5f0c" (3 * day) 2 None today).
  - apply (bool_decide_unpack _). vm_compute. exact I.
  - intros l Hl. cbn in Hl. by apply elem_of_nil in Hl.
  - intros img Himg. cbn in Himg. rewrite !elem_of_cons, elem_of_nil in Himg.
    destruct Himg as [->|[->|[]]]; vm_compute; reflexivity.
Defined.

Lemma X19_reachable_files_present_witness :
  is_Some ((@POST_image flat_names empty_db ∅ "http://localhost:8000/" None None
              (Some png_upload) "5f0c" (1 * day)).1.2
           !! Image.stored_filename
                (@new_image flat_names empty_db None None png_upload "5f0c" (1 * day))).
Proof.
  apply (@X19_reachable_files_present flat_names
           (@POST_image flat_names empty_db ∅ "http://localhost:8000/" None None
              (Some png_upload) "5f0c" (1 * day)).1).
  - unfold reachable_world.
    eapply rtc_l; [apply world_upload|]. apply rtc_refl.
  - vm_compute. left.
Defined.
